(** * fpgagen: the RISC-V assembler, the static branch-fact deriver and the
      branch-table packer of [src/fpgagen.py]

    The Python program is embedded shallowly:
    - Python [int] is [Z]; [&], [|], [<<], [>>] are [Z.land], [Z.lor],
      [Z.shiftl], [Z.shiftr] (both sides use the infinite two's-complement
      reading of negative numbers);
    - [str] is [string]; a character is a code point below 256, and the
      [str] methods the program calls ([strip], [split], [lower], [replace],
      [startswith], [in], [int]) are written out below for that range
      (text with code points from 256 on, and the limit [int] puts on the
      number of decimal digits, are outside the model);
    - a [dict] is a [gmap];
    - a raised exception is the [Raise] result of a small error monad;
    - the [self.labels] attribute of [RISCVAssembler] is threaded explicitly
      through [assemble]. *)

From Stdlib Require Import ZArith Ascii String List Lia Bool.
From stdpp Require Import base gmap strings list fin_maps sorting.

Local Open Scope Z_scope.

(** ** Exceptions *)

Inductive exn := ValueError | IndexError | KeyError.

Inductive result (A : Type) : Type :=
| Ok (a : A)
| Raise (e : exn).
Arguments Ok {A} a.
Arguments Raise {A} e.

#[global] Instance result_ret : MRet result := fun A a => Ok a.
#[global] Instance result_bind : MBind result := fun A B k r =>
  match r with
  | Ok a => k a
  | Raise e => Raise e
  end.

Definition raises {A} (r : result A) : Prop :=
  match r with Raise _ => True | Ok _ => False end.

(** ** The [str] methods used by the program *)

Module Py.

Definition code (c : ascii) : Z := Z.of_N (N_of_ascii c).

(** [str.isspace] on one character. *)
Definition isspace (c : ascii) : bool :=
  let n := code c in
  ((9 <=? n) && (n <=? 13)) || ((28 <=? n) && (n <=? 32))
  || (n =? 133) || (n =? 160).

(** [str.lower] on one character. *)
Definition lower_char (c : ascii) : ascii :=
  let n := code c in
  if ((65 <=? n) && (n <=? 90))
     || ((192 <=? n) && (n <=? 222) && negb (n =? 215))
  then ascii_of_N (Z.to_N (n + 32)) else c.

Fixpoint map_chars (f : ascii -> ascii) (s : string) : string :=
  match s with
  | EmptyString => EmptyString
  | String c r => String (f c) (map_chars f r)
  end.

Definition lower (s : string) : string := map_chars lower_char s.

(** [s.replace(a, b)] for one-character [a] and [b]. *)
Definition replace (a b : ascii) (s : string) : string :=
  map_chars (fun c => if Ascii.eqb c a then b else c) s.

Fixpoint lstrip_by (space : ascii -> bool) (s : string) : string :=
  match s with
  | EmptyString => EmptyString
  | String c r => if space c then lstrip_by space r else s
  end.

Fixpoint rstrip_by (space : ascii -> bool) (s : string) : string :=
  match s with
  | EmptyString => EmptyString
  | String c r =>
      match rstrip_by space r with
      | EmptyString => if space c then EmptyString else String c EmptyString
      | r' => String c r'
      end
  end.

(** [s.strip()]. *)
Definition strip (s : string) : string := rstrip_by isspace (lstrip_by isspace s).

(** [s.startswith(c)] for a one-character [c]. *)
Definition startswith (c : ascii) (s : string) : bool :=
  match s with
  | String d _ => Ascii.eqb d c
  | EmptyString => false
  end.

(** [c in s] for a one-character [c]. *)
Fixpoint contains (c : ascii) (s : string) : bool :=
  match s with
  | EmptyString => false
  | String d r => Ascii.eqb d c || contains c r
  end.

(** [not s]. *)
Definition is_empty (s : string) : bool :=
  match s with EmptyString => true | _ => false end.

(** [s.split(sep)] for a one-character [sep]: empty fields are kept. *)
Fixpoint split_char (sep : ascii) (s : string) : list string :=
  match s with
  | EmptyString => [EmptyString]
  | String c r =>
      if Ascii.eqb c sep then EmptyString :: split_char sep r
      else match split_char sep r with
           | h :: t => String c h :: t
           | [] => [String c EmptyString]
           end
  end.

(** [s.split()]: fields are separated by runs of white space, no empty
    field is produced. *)
Fixpoint split (s : string) : list string :=
  match s with
  | EmptyString => []
  | String c r =>
      if isspace c then split r
      else match r with
           | EmptyString => [String c EmptyString]
           | String c' _ =>
               if isspace c' then String c EmptyString :: split r
               else match split r with
                    | h :: t => String c h :: t
                    | [] => [String c EmptyString]
                    end
           end
  end.

(** [s[1:]]. *)
Definition tail (s : string) : string :=
  match s with
  | EmptyString => EmptyString
  | String _ r => r
  end.

(** [l[i]] on a list. *)
Definition index {A} (l : list A) (i : nat) : result A :=
  match nth_error l i with
  | Some a => Ok a
  | None => Raise IndexError
  end.

(** *** [int(s)] and [int(s, 0)]

    The value of a digit character in Python's digit table. *)
Definition digit_value (c : ascii) : option Z :=
  let n := code c in
  if (48 <=? n) && (n <=? 57) then Some (n - 48)
  else if (97 <=? n) && (n <=? 122) then Some (n - 87)
  else if (65 <=? n) && (n <=? 90) then Some (n - 55)
  else None.

(** The digit scan: digits below [base], single underscores between
    them, nothing else up to the end of the text. *)
Fixpoint scan_digits (base : Z) (prev_us : bool) (acc : Z) (s : string)
  : option Z :=
  match s with
  | EmptyString => if prev_us then None else Some acc
  | String c r =>
      if Ascii.eqb c "_" then
        if prev_us then None else scan_digits base true acc r
      else
        match digit_value c with
        | Some d =>
            if d <? base then scan_digits base false (acc * base + d) r
            else None
        | None => None
        end
  end.

Definition int_digits (base : Z) (s : string) : option Z :=
  match s with
  | EmptyString => None
  | String c _ => if Ascii.eqb c "_" then None else scan_digits base false 0 s
  end.

Definition split_sign (s : string) : bool * string :=
  match s with
  | String "+" r => (false, r)
  | String "-" r => (true, r)
  | _ => (false, s)
  end.

Definition apply_sign (neg : bool) (v : Z) : Z := if neg then - v else v.

(** One underscore is allowed right after a base prefix. *)
Definition skip_underscore (s : string) : string :=
  match s with
  | String "_" r => r
  | _ => s
  end.

(** The white space [int] skips around the literal: that of [str.isspace]
    without the separators 28 to 31. *)
Definition isspace_int (c : ascii) : bool :=
  let n := code c in
  ((9 <=? n) && (n <=? 13)) || (n =? 32) || (n =? 133) || (n =? 160).

Definition strip_int (s : string) : string :=
  rstrip_by isspace_int (lstrip_by isspace_int s).

(** [int(s)]: base ten. *)
Definition int10 (s : string) : result Z :=
  let '(neg, body) := split_sign (strip_int s) in
  match int_digits 10 body with
  | Some v => Ok (apply_sign neg v)
  | None => Raise ValueError
  end.

(** The base chosen by [int(s, 0)] from the text after the sign: the
    base, the digits, and whether only the value zero is accepted (a
    decimal text with a leading zero). *)
Definition detect_base (s : string) : Z * string * bool :=
  match s with
  | String "0" (String c r) =>
      if Ascii.eqb c "x" || Ascii.eqb c "X" then (16, skip_underscore r, false)
      else if Ascii.eqb c "o" || Ascii.eqb c "O" then (8, skip_underscore r, false)
      else if Ascii.eqb c "b" || Ascii.eqb c "B" then (2, skip_underscore r, false)
      else (10, s, true)
  | _ => (10, s, false)
  end.

(** [int(s, 0)]: the base is read off the literal's prefix. *)
Definition int0 (s : string) : result Z :=
  let '(neg, s1) := split_sign (strip_int s) in
  let '(base, body, zero_only) := detect_base s1 in
  match int_digits base body with
  | Some v =>
      if zero_only && negb (v =? 0) then Raise ValueError
      else Ok (apply_sign neg v)
  | None => Raise ValueError
  end.

(** [int(s, 16)]: hexadecimal digits, after an optional [0x] prefix. *)
Definition strip_prefix16 (s : string) : string :=
  match s with
  | String "0" (String c r) =>
      if Ascii.eqb c "x" || Ascii.eqb c "X" then skip_underscore r else s
  | _ => s
  end.

Definition int16 (s : string) : result Z :=
  let '(neg, s1) := split_sign (strip_int s) in
  match int_digits 16 (strip_prefix16 s1) with
  | Some v => Ok (apply_sign neg v)
  | None => Raise ValueError
  end.

End Py.

(** ** [RISCVAssembler] *)

(** A dict literal with string keys, looked up by [d.get(k)]. *)
Fixpoint assoc (k : string) (d : list (string * Z)) : option Z :=
  match d with
  | [] => None
  | (k', v) :: d' => if String.eqb k k' then Some v else assoc k d'
  end.

(** [k in l] for a list literal of strings. *)
Definition mem (k : string) (l : list string) : bool :=
  existsb (String.eqb k) l.

(** The instance attributes set by [__init__]. Only [labels] is ever read
    or written afterwards. *)
Record RISCVAssembler := {
  labels : gmap string Z;
  instructions : list Z;
  pc : Z
}.

Definition new_assembler : RISCVAssembler :=
  {| labels := ∅; instructions := []; pc := 0 |}.

Definition reg_map : list (string * Z) :=
  [("zero", 0); ("ra", 1); ("sp", 2); ("gp", 3); ("tp", 4);
   ("t0", 5); ("t1", 6); ("t2", 7); ("s0", 8); ("fp", 8);
   ("s1", 9); ("a0", 10); ("a1", 11); ("a2", 12); ("a3", 13);
   ("a4", 14); ("a5", 15); ("a6", 16); ("a7", 17);
   ("s2", 18); ("s3", 19); ("s4", 20); ("s5", 21);
   ("s6", 22); ("s7", 23); ("s8", 24); ("s9", 25);
   ("s10", 26); ("s11", 27); ("t3", 28); ("t4", 29);
   ("t5", 30); ("t6", 31)].

Definition _parse_register (reg : string) : result Z :=
  let reg := Py.strip (Py.lower reg) in
  if Py.startswith "x" reg then Py.int10 (Py.tail reg)
  else Ok (default 0 (assoc reg reg_map)).

(** The target of a branch or of [jal]: a label of the table, relative to
    the instruction's address, or else an integer literal taken as the
    offset itself. *)
Definition resolve_offset (lbls : gmap string Z) (target : string) (pc : Z)
  : result Z :=
  match lbls !! target with
  | Some a => Ok (a - pc)
  | None => Py.int0 target
  end.

Definition branch_funct3_map : list (string * Z) :=
  [("beq", 0); ("bne", 1); ("blt", 4); ("bge", 5)].

(** The bit arithmetic of [_encode_branch], after the operands are read. *)
Definition branch_word (funct3 rs1 rs2 offset : Z) : Z :=
  let imm12 := Z.land offset 0x1000 in
  let imm10_5 := Z.shiftl (Z.land offset 0x7E0) 20 in
  let imm4_1 := Z.shiftl (Z.land offset 0x1E) 7 in
  let imm11 := Z.shiftr (Z.land offset 0x800) 4 in
  Z.lor (Z.lor (Z.lor (Z.lor (Z.lor (Z.lor (Z.lor
    0x63 (Z.shiftl funct3 12)) (Z.shiftl rs1 15)) (Z.shiftl rs2 20))
    imm4_1) imm11) imm10_5) imm12.

Definition _encode_branch (lbls : gmap string Z) (opcode : string)
    (operands : list string) (pc : Z) : result Z :=
  r1 ← Py.index operands 0;
  rs1 ← _parse_register r1;
  r2 ← Py.index operands 1;
  rs2 ← _parse_register r2;
  target ← Py.index operands 2;
  offset ← resolve_offset lbls target pc;
  let funct3 := default 0 (assoc opcode branch_funct3_map) in
  Ok (branch_word funct3 rs1 rs2 offset).

Definition jal_word (rd offset : Z) : Z :=
  Z.lor (Z.lor 0x6F (Z.shiftl rd 7)) (Z.land offset 0xFFFFF000).

Definition jalr_word (rd rs1 offset : Z) : Z :=
  Z.lor (Z.lor (Z.lor (Z.lor 0x67 (Z.shiftl rd 7)) (Z.shiftl 0 12))
    (Z.shiftl rs1 15)) (Z.shiftl (Z.land offset 0xFFF) 20).

Definition _encode_jump (lbls : gmap string Z) (opcode : string)
    (operands : list string) (pc : Z) : result Z :=
  if String.eqb opcode "jal" then
    r ← Py.index operands 0;
    rd ← _parse_register r;
    target ← Py.index operands 1;
    offset ← resolve_offset lbls target pc;
    Ok (jal_word rd offset)
  else
    r ← Py.index operands 0;
    rd ← _parse_register r;
    r1 ← Py.index operands 1;
    rs1 ← _parse_register r1;
    offset ← (if (2 <? length operands)%nat
              then (o ← Py.index operands 2; Py.int0 o)
              else Ok 0);
    Ok (jalr_word rd rs1 offset).

Definition rtype_funct3_map : list (string * Z) :=
  [("add", 0); ("sub", 0); ("and", 7); ("or", 6); ("xor", 4)].

Definition rtype_funct7_map : list (string * Z) :=
  [("add", 0); ("sub", 0x20); ("and", 0); ("or", 0); ("xor", 0)].

(** [d[k]]: a missing key raises. *)
Definition getitem (k : string) (d : list (string * Z)) : result Z :=
  match assoc k d with
  | Some v => Ok v
  | None => Raise KeyError
  end.

Definition rtype_word (funct3 funct7 rd rs1 rs2 : Z) : Z :=
  Z.lor (Z.lor (Z.lor (Z.lor (Z.lor
    0x33 (Z.shiftl rd 7)) (Z.shiftl funct3 12))
    (Z.shiftl rs1 15)) (Z.shiftl rs2 20)) (Z.shiftl funct7 25).

Definition _encode_rtype (opcode : string) (operands : list string)
  : result Z :=
  r ← Py.index operands 0;
  rd ← _parse_register r;
  r1 ← Py.index operands 1;
  rs1 ← _parse_register r1;
  r2 ← Py.index operands 2;
  rs2 ← _parse_register r2;
  funct3 ← getitem opcode rtype_funct3_map;
  funct7 ← getitem opcode rtype_funct7_map;
  Ok (rtype_word funct3 funct7 rd rs1 rs2).

Definition itype_funct3_map : list (string * Z) :=
  [("addi", 0); ("andi", 7); ("ori", 6); ("xori", 4)].

Definition itype_word (funct3 rd rs1 imm : Z) : Z :=
  Z.lor (Z.lor (Z.lor (Z.lor
    0x13 (Z.shiftl rd 7)) (Z.shiftl funct3 12))
    (Z.shiftl rs1 15)) (Z.shiftl (Z.land imm 0xFFF) 20).

Definition _encode_itype (opcode : string) (operands : list string)
  : result Z :=
  r ← Py.index operands 0;
  rd ← _parse_register r;
  r1 ← Py.index operands 1;
  rs1 ← _parse_register r1;
  i ← Py.index operands 2;
  imm ← Py.int0 i;
  funct3 ← getitem opcode itype_funct3_map;
  Ok (itype_word funct3 rd rs1 imm).

(** A line that neither pass treats as an instruction or a label: blank,
    or starting with [#]. [line] is already stripped. *)
Definition blank_or_comment (line : string) : bool :=
  Py.is_empty line || Py.startswith "#" line.

(** One iteration of the first pass. *)
Definition pass1_step (st : gmap string Z * Z) (line : string)
  : gmap string Z * Z :=
  let '(lbls, current_pc) := st in
  let line := Py.strip line in
  if blank_or_comment line then st
  else if Py.contains ":" line then
    let label := Py.strip (hd EmptyString (Py.split_char ":" line)) in
    (<[label := current_pc]> lbls, current_pc)
  else (lbls, current_pc + 4).

Definition pass1 (lbls : gmap string Z) (lines : list string)
  : gmap string Z :=
  fst (fold_left pass1_step lines (lbls, 0)).

(** The word of one instruction line of the second pass ([line] stripped,
    not blank, not a comment, without [:]). *)
Definition encode_line (lbls : gmap string Z) (line : string)
    (current_pc : Z) : result Z :=
  let parts := Py.split (Py.replace "," " " line) in
  p0 ← Py.index parts 0;
  let opcode := Py.lower p0 in
  let operands := List.tl parts in
  if mem opcode ["beq"; "bne"; "blt"; "bge"] then
    _encode_branch lbls opcode operands current_pc
  else if mem opcode ["jal"; "jalr"] then
    _encode_jump lbls opcode operands current_pc
  else if mem opcode ["add"; "sub"; "and"; "or"; "xor"] then
    _encode_rtype opcode operands
  else if mem opcode ["addi"; "andi"; "ori"; "xori"] then
    _encode_itype opcode operands
  else if String.eqb opcode "nop" then Ok 0x00000013
  else Ok 0x00000013.

(** Whether the second pass skips the (stripped) line. *)
Definition skipped (line : string) : bool :=
  blank_or_comment line || Py.contains ":" line.

(** The loop of the second pass, from address [current_pc] with the words
    [machine_code] emitted so far. *)
Fixpoint pass2 (lbls : gmap string Z) (lines : list string)
    (current_pc : Z) (machine_code : list Z) : result (list Z) :=
  match lines with
  | [] => Ok machine_code
  | line :: rest =>
      let line := Py.strip line in
      if skipped line then pass2 lbls rest current_pc machine_code
      else
        code ← encode_line lbls line current_pc;
        pass2 lbls rest (current_pc + 4) (machine_code ++ [code])
  end.

(** The lines [assemble] walks over: [assembly_code.strip().split('\n')]. *)
Definition source_lines (assembly_code : string) : list string :=
  Py.split_char "010" (Py.strip assembly_code).

(** [assemble]: the instance after the call (its label table is updated
    by the first pass even if the second raises) and the returned words
    or the exception. *)
Definition assemble (self : RISCVAssembler) (assembly_code : string)
  : RISCVAssembler * result (list Z) :=
  let lines := source_lines assembly_code in
  let lbls := pass1 (labels self) lines in
  ({| labels := lbls; instructions := instructions self; pc := pc self |},
   pass2 lbls lines 0 []).

(** ** [BranchTraceParser.generate_from_assembly] *)

(** A branch fact: the tuple [(pc, taken, target)]. *)
Definition fact : Type := Z * bool * Z.

(** The offset read back from a word of opcode 0x63. *)
Definition branch_offset (inst : Z) : Z :=
  let imm12 := Z.land (Z.shiftr inst 31) 0x1 in
  let imm10_5 := Z.land (Z.shiftr inst 25) 0x3F in
  let imm4_1 := Z.land (Z.shiftr inst 8) 0xF in
  let imm11 := Z.land (Z.shiftr inst 7) 0x1 in
  let offset :=
    Z.lor (Z.lor (Z.lor (Z.shiftl imm12 12) (Z.shiftl imm11 11))
      (Z.shiftl imm10_5 5)) (Z.shiftl imm4_1 1) in
  if negb (imm12 =? 0) then Z.lor offset 0xFFFFE000 else offset.

(** The offset read back from a word of opcode 0x6F. *)
Definition jal_offset (inst : Z) : Z :=
  let imm20 := Z.land (Z.shiftr inst 31) 0x1 in
  let imm10_1 := Z.land (Z.shiftr inst 21) 0x3FF in
  let imm11 := Z.land (Z.shiftr inst 20) 0x1 in
  let imm19_12 := Z.land (Z.shiftr inst 12) 0xFF in
  let offset :=
    Z.lor (Z.lor (Z.lor (Z.shiftl imm20 20) (Z.shiftl imm19_12 12))
      (Z.shiftl imm11 11)) (Z.shiftl imm10_1 1) in
  if negb (imm20 =? 0) then Z.lor offset 0xFFE00000 else offset.

(** The body of the loop for the word [inst] at index [i] and address
    [pc]: the facts appended to [branches]. *)
Definition derive (i : Z) (pc : Z) (inst : Z) : list fact :=
  let opcode := Z.land inst 0x7F in
  if opcode =? 0x63 then
    let target := Z.land (pc + branch_offset inst) 0xFFFFFFFF in
    let taken := (i mod 2 =? 0) in
    [(pc, taken, target)]
  else if opcode =? 0x6F then
    let target := Z.land (pc + jal_offset inst) 0xFFFFFFFF in
    [(pc, true, target)]
  else [].

(** The loop, from index [i] and address [pc] with the facts [branches]
    collected so far. *)
Fixpoint generate_loop (machine_code : list Z) (i pc : Z)
    (branches : list fact) : list fact :=
  match machine_code with
  | [] => branches
  | inst :: rest => generate_loop rest (i + 1) (pc + 4) (branches ++ derive i pc inst)
  end.

Definition generate_from_assembly (machine_code : list Z) : list fact :=
  generate_loop machine_code 0 0 [].

(** ** [generate_branch_mem] *)

(** [int(taken)]. *)
Definition int_of_bool (b : bool) : Z := if b then 1 else 0.

Definition table_index (pc : Z) : Z := Z.land (Z.shiftr pc 2) 0xFF.

Definition pack_entry (f : fact) : Z :=
  let '(pc, taken, target) := f in
  let valid := 1 in
  Z.lor (Z.lor (Z.lor (Z.shiftl valid 65) (Z.shiftl (int_of_bool taken) 64))
    (Z.shiftl pc 32)) target.

(** The dict [branch_table] after the first loop. *)
Definition build_table (branches : list fact) : gmap Z Z :=
  fold_left (fun tbl f => <[table_index f.1.1 := pack_entry f]> tbl)
    branches ∅.

(** [f"{n:018X}"]: upper-case hexadecimal, padded with zeros after the
    sign to eighteen characters. *)
Definition hex_char (d : Z) : ascii :=
  ascii_of_N (Z.to_N (if d <? 10 then 48 + d else 55 + d)).

Fixpoint hex_digits (fuel : nat) (n : Z) (acc : string) : string :=
  match fuel with
  | O => acc
  | S fuel' =>
      if n =? 0 then acc
      else hex_digits fuel' (n / 16) (String (hex_char (n mod 16)) acc)
  end.

Fixpoint zeros (k : nat) : string :=
  match k with
  | O => EmptyString
  | S k' => String "0" (zeros k')
  end.

Definition format_018X (n : Z) : string :=
  let digits :=
    if n =? 0 then "0"
    else hex_digits (S (Z.to_nat (Z.log2 (Z.abs n)))) (Z.abs n) EmptyString in
  let sign := if n <? 0 then "-" else "" in
  sign +:+ zeros (18 - String.length sign - String.length digits) +:+ digits.

(** The text of line [i] of the file, without its line feed: the entry
    of the table, or eighteen zeros for an index that is not a key. *)
Definition slot_line (tbl : gmap Z Z) (i : Z) : string :=
  match tbl !! i with
  | Some entry => format_018X entry
  | None => "000000000000000000"
  end.

(** The 256 lines written to the file, in order. (The message printed at
    the end is not modelled.) *)
Definition generate_branch_mem (branches : list fact) : list string :=
  let tbl := build_table branches in
  map (fun i => slot_line tbl (Z.of_nat i)) (seq 0 256).

(** ** Definitions used to state the properties *)

(** The [n] bits of [w] from bit [lo] upwards, as a number. *)
Definition field (w lo n : Z) : Z := (w / 2 ^ lo) mod 2 ^ n.

(** The J-type immediate of the RISC-V base encoding, sign-extended:
    imm[20] is word bit 31, imm[10:1] bits 30:21, imm[11] bit 20 and
    imm[19:12] bits 19:12. *)
Definition j_immediate (w : Z) : Z :=
  2 * field w 21 10 + 2 ^ 11 * field w 20 1 + 2 ^ 12 * field w 12 8
  - 2 ^ 20 * field w 31 1.

(** The reading of the JAL case in the specification: the upper twenty
    bits of the word, taken as a signed 32-bit number. *)
Definition spec_jal_offset (w : Z) : Z :=
  let x := Z.land w 0xFFFFF000 in
  if Z.testbit w 31 then x - 2 ^ 32 else x.

Definition spec_jal_target (pc w : Z) : Z := (pc + spec_jal_offset w) mod 2 ^ 32.

(** The line feed, and the source texts the properties are tried on. *)
Definition nl : string := String "010" "".

Definition loop_program : string :=
  "addi x1, x0, 10" +:+ nl +:+ "addi x2, x0, 0" +:+ nl +:+ "loop:" +:+ nl
  +:+ "addi x2, x2, 1" +:+ nl +:+ "addi x1, x1, -1" +:+ nl
  +:+ "bne x1, x0, loop".

Definition counter_program : string :=
  "loop:" +:+ nl +:+ "addi x1, x1, 1".

(** The target token of a source line that holds a branch or a [jal]: the
    third operand of [beq], [bne], [blt], [bge], the second of [jal]. *)
Definition target_token (line : string) : option string :=
  match Py.split (Py.replace "," " " (Py.strip line)) with
  | [] => None
  | p0 :: operands =>
      let opcode := Py.lower p0 in
      if mem opcode ["beq"; "bne"; "blt"; "bge"] then nth_error operands 2
      else if String.eqb opcode "jal" then nth_error operands 1
      else None
  end.

(** The literals named by the specification: an optionally signed run of
    decimal digits, or of hexadecimal digits after [0x]. *)
Fixpoint all_digits (base : Z) (s : string) : bool :=
  match s with
  | EmptyString => true
  | String c r =>
      match Py.digit_value c with
      | Some d => (d <? base) && all_digits base r
      | None => false
      end
  end.

Definition spec_decimal_or_hex (t : string) : bool :=
  let '(_, body) := Py.split_sign t in
  match body with
  | String "0" (String c r) =>
      if Ascii.eqb c "x" || Ascii.eqb c "X"
      then negb (Py.is_empty r) && all_digits 16 r
      else all_digits 10 body
  | _ => negb (Py.is_empty body) && all_digits 10 body
  end.

Definition dangling_program : string :=
  "addi x1, x0, 1" +:+ nl +:+ "bne x1, x0, done" +:+ nl +:+ "nop".


Definition backward_branch_program : string :=
  "loop:" +:+ nl +:+ "nop" +:+ nl +:+ "beq x0, x0, loop".

Definition forward_jal_program : string :=
  "jal x0, end" +:+ nl +:+ "nop" +:+ nl +:+ "end:" +:+ nl +:+ "nop".

(** [generate_from_assembly(assemble(source))] on a fresh instance. *)
Definition assemble_and_derive (source : string) : result (list fact) :=
  ws ← (assemble new_assembler source).2; Ok (generate_from_assembly ws).

(** ** [BranchTraceParser.parse_trace] *)

(** The body of the loop over the lines of the trace file, for one line as
    the file iterator yields it (with its line end). Opening the file is
    not modelled. *)
Definition parse_trace_step (branches : list fact) (line : string)
  : result (list fact) :=
  let line := Py.strip line in
  if blank_or_comment line then Ok branches
  else
    let parts := Py.split line in
    if (3 <=? length parts)%nat then
      p0 ← Py.index parts 0;
      a ← Py.int16 p0;
      p1 ← Py.index parts 1;
      t ← Py.int10 p1;
      let taken := negb (t =? 0) in
      p2 ← Py.index parts 2;
      target ← Py.int16 p2;
      Ok (branches ++ [(a, taken, target)])
    else Ok branches.

Fixpoint parse_trace_loop (lines : list string) (branches : list fact)
  : result (list fact) :=
  match lines with
  | [] => Ok branches
  | line :: rest =>
      branches' ← parse_trace_step branches line;
      parse_trace_loop rest branches'
  end.

Definition parse_trace (lines : list string) : result (list fact) :=
  parse_trace_loop lines [].

(** ** [generate_program_mem] *)

(** [f"{n:0wX}"] for a width [w]. *)
Definition format_hex (width : nat) (n : Z) : string :=
  let digits :=
    if n =? 0 then "0"
    else hex_digits (S (Z.to_nat (Z.log2 (Z.abs n)))) (Z.abs n) EmptyString in
  let sign := if n <? 0 then "-" else "" in
  sign +:+ zeros (width - String.length sign - String.length digits) +:+ digits.

Definition format_08X (n : Z) : string := format_hex 8 n.

(** The lines written to the file, in order, without their line feeds.
    (The message printed at the end is not modelled.) *)
Definition generate_program_mem (machine_code : list Z) : list string :=
  map format_08X machine_code.

(** ** Definitions used to state further properties *)

(** The lines the second pass encodes. *)
Definition instruction_lines (lines : list string) : list string :=
  List.filter (fun l => negb (skipped (Py.strip l))) lines.

(** The words of a list of instruction lines, the first at address [a],
    up to the first exception. *)
Fixpoint encode_all (lbls : gmap string Z) (ls : list string) (a : Z)
  : result (list Z) :=
  match ls with
  | [] => Ok []
  | l :: rest =>
      w ← encode_line lbls (Py.strip l) a;
      ws ← encode_all lbls rest (a + 4);
      Ok (w :: ws)
  end.

(** The label a line defines in the first pass, if any. *)
Definition label_of (line : string) : option string :=
  let line := Py.strip line in
  if blank_or_comment line then None
  else if Py.contains ":" line
       then Some (Py.strip (hd EmptyString (Py.split_char ":" line)))
       else None.

(** A fact whose address and target are 32-bit numbers. *)
Definition fact32 (f : fact) : Prop :=
  0 <= f.1.1 < 2 ^ 32 ∧ 0 <= f.2 < 2 ^ 32.




(** * Properties *)

(** ** The embedding on small inputs *)

Example int0_hex : Py.int0 "0x1F" = Ok 31. Proof. reflexivity. Qed.
Example int0_neg : Py.int0 "-12" = Ok (-12). Proof. reflexivity. Qed.
Example int0_bin : Py.int0 "0b101" = Ok 5. Proof. reflexivity. Qed.
Example int0_us : Py.int0 "1_000" = Ok 1000. Proof. reflexivity. Qed.
Example int0_lead0 : Py.int0 "010" = Raise ValueError. Proof. reflexivity. Qed.
Example int0_zeros : Py.int0 "00" = Ok 0. Proof. reflexivity. Qed.
Example int0_word : Py.int0 "loop" = Raise ValueError. Proof. reflexivity. Qed.
Example int10_lead0 : Py.int10 "007" = Ok 7. Proof. reflexivity. Qed.
Example int10_empty : Py.int10 "" = Raise ValueError. Proof. reflexivity. Qed.
Example int10_tab : Py.int10 (String "009" "5") = Ok 5. Proof. reflexivity. Qed.
Example int10_fs : Py.int10 (String "028" "5") = Raise ValueError.
Proof. reflexivity. Qed.
Example int0_prefix_us : Py.int0 "0x_1f" = Ok 31. Proof. reflexivity. Qed.
Example int0_two_us : Py.int0 "0x__1" = Raise ValueError. Proof. reflexivity. Qed.
Example int0_0_1 : Py.int0 "0_1" = Raise ValueError. Proof. reflexivity. Qed.
Example int0_sign_hex : Py.int0 "+0x10" = Ok 16. Proof. reflexivity. Qed.
Example split_ex :
  Py.split "  addi x1  x0 10 " = ["addi"; "x1"; "x0"; "10"].
Proof. reflexivity. Qed.
Example split_char_ex : Py.split_char ":" "a:b:" = ["a"; "b"; ""].
Proof. reflexivity. Qed.
Example strip_ex : Py.strip "  a b  " = "a b". Proof. reflexivity. Qed.
Example format_entry :
  format_018X (pack_entry (0x40, true, 0x100)) = "030000004000000100".
Proof. vm_compute. reflexivity. Qed.
Example format_negative : format_018X (-255) = "-000000000000000FF".
Proof. vm_compute. reflexivity. Qed.
Example format_zero : format_018X 0 = "000000000000000000".
Proof. vm_compute. reflexivity. Qed.

Example loop_program_words :
  (assemble new_assembler loop_program).2
  = Ok [0x00A00093; 0x00000113; 0x00110113; 0xFFF08093; 0x7E009CE3].
Proof. vm_compute. reflexivity. Qed.

Example loop_program_facts :
  generate_from_assembly
    [0x00A00093; 0x00000113; 0x00110113; 0xFFF08093; 0x7E009CE3]
  = [(16, true, 4104)].
Proof. vm_compute. reflexivity. Qed.

(** ** The static branch-fact deriver as a whole *)

Section Deriver.

Implicit Types (ws : list Z) (f : fact) (k : nat).

Lemma generate_loop_acc ws : ∀ i pc acc,
  generate_loop ws i pc acc = acc ++ generate_loop ws i pc [].
Proof.
  induction ws as [|w ws IH]; intros i pc acc; simpl.
  - by rewrite app_nil_r.
  - rewrite (IH _ _ (acc ++ _)), (IH _ _ (derive i pc w)).
    by rewrite app_assoc.
Qed.

Lemma elem_of_generate_loop ws : ∀ i pc f,
  f ∈ generate_loop ws i pc [] ↔
  ∃ k inst, ws !! k = Some inst ∧
            f ∈ derive (i + Z.of_nat k) (pc + 4 * Z.of_nat k) inst.
Proof.
  induction ws as [|w ws IH]; intros i pc f; simpl.
  - split; [by intros ?%elem_of_nil | by intros (k & inst & ? & _)].
  - rewrite generate_loop_acc, elem_of_app, IH. split.
    + intros [Hf | (k & inst & Hk & Hf)].
      * exists 0%nat, w. split; [done|].
        by rewrite !Z.add_0_r.
      * exists (S k), inst. split; [done|].
        by replace (i + Z.of_nat (S k)) with (i + 1 + Z.of_nat k) by lia;
           replace (pc + 4 * Z.of_nat (S k)) with (pc + 4 + 4 * Z.of_nat k) by lia.
    + intros ([|k] & inst & Hk & Hf).
      * left. simpl in Hk. injection Hk as ->.
        by rewrite !Z.add_0_r in Hf.
      * right. exists k, inst. split; [done|].
        by replace (i + 1 + Z.of_nat k) with (i + Z.of_nat (S k)) by lia;
           replace (pc + 4 + 4 * Z.of_nat k) with (pc + 4 * Z.of_nat (S k)) by lia.
Qed.

(** The facts of the whole run are those of each word at its index [k]
    and address [4 * k]. *)
Lemma elem_of_generate_from_assembly ws f :
  f ∈ generate_from_assembly ws ↔
  ∃ k inst, ws !! k = Some inst ∧
            f ∈ derive (Z.of_nat k) (4 * Z.of_nat k) inst.
Proof. unfold generate_from_assembly. by rewrite elem_of_generate_loop. Qed.

Lemma derive_address i pc inst f : f ∈ derive i pc inst → f.1.1 = pc.
Proof.
  unfold derive. repeat case_match; [| |by intros ?%elem_of_nil];
    by intros ->%list_elem_of_singleton.
Qed.

(** A fact at address [4 * k] comes from the word at index [k]. *)
Lemma fact_of_word ws k inst f :
  ws !! k = Some inst →
  f ∈ generate_from_assembly ws → f.1.1 = 4 * Z.of_nat k →
  f ∈ derive (Z.of_nat k) (4 * Z.of_nat k) inst.
Proof.
  intros Hk (k' & inst' & Hk' & Hf)%elem_of_generate_from_assembly Hpc.
  apply derive_address in Hf as Hpc'.
  assert (k' = k) as -> by lia.
  by simplify_eq.
Qed.

End Deriver.

Lemma mod2_even (k : nat) : (Z.of_nat k mod 2 =? 0) = Nat.even k.
Proof.
  destruct (Nat.even k) eqn:E.
  - apply Nat.even_spec in E as [m ->]. apply Z.eqb_eq.
    rewrite Nat2Z.inj_mul, Z.mul_comm. apply Z.mod_mul. lia.
  - apply Z.eqb_neq. intros H.
    assert (Nat.odd k = true) as [m ->]%Nat.odd_spec
      by (by rewrite <- Nat.negb_even, E).
    replace (Z.of_nat (2 * m + 1)) with (1 + Z.of_nat m * 2) in H by lia.
    rewrite Z.mod_add in H by lia. discriminate.
Qed.

(** C8. In static branch-fact derivation, the word at index [k] of the
    sequence (counted over all words) contributes a fact at its address
    [4 * k] exactly in two cases: its low seven bits are 0x63, and then the
    fact's taken flag is true exactly when [k] is even; or they are 0x6F, and
    then the flag is true. A word of any other opcode contributes no fact. *)
Theorem C8_taken_alternates_by_index
    (ws : list Z) (k : nat) (inst : Z) (taken : bool) (target : Z) :
  ws !! k = Some inst →
  (4 * Z.of_nat k, taken, target) ∈ generate_from_assembly ws ↔
    (Z.land inst 0x7F = 0x63 ∧ taken = Nat.even k ∧
     target = Z.land (4 * Z.of_nat k + branch_offset inst) 0xFFFFFFFF) ∨
    (Z.land inst 0x7F = 0x6F ∧ taken = true ∧
     target = Z.land (4 * Z.of_nat k + jal_offset inst) 0xFFFFFFFF).
Proof.
  intros Hk. split.
  - intros Hf. eapply fact_of_word in Hf; [|done..].
    revert Hf. unfold derive. rewrite mod2_even.
    destruct (Z.eqb_spec (Z.land inst 0x7F) 0x63) as [E|E].
    { intros ?%list_elem_of_singleton. simplify_eq. by left. }
    destruct (Z.eqb_spec (Z.land inst 0x7F) 0x6F) as [E'|E'].
    { intros ?%list_elem_of_singleton. simplify_eq. by right. }
    by intros ?%elem_of_nil.
  - intros HC. apply elem_of_generate_from_assembly. exists k, inst.
    split; [done|]. unfold derive. rewrite mod2_even.
    destruct HC as [(E & -> & ->) | (E & -> & ->)]; rewrite E; simpl;
      by apply list_elem_of_singleton.
Qed.

Lemma C8_taken_alternates_by_index_witness :
  [0x13; 0x63; 0x6F] !! 1%nat = Some 0x63 ∧
  (4 * Z.of_nat 1, false, 4) ∈ generate_from_assembly [0x13; 0x63; 0x6F].
Proof.
  split; [reflexivity|].
  apply (C8_taken_alternates_by_index [0x13; 0x63; 0x6F] 1 0x63 false 4);
    [reflexivity|].
  left. repeat split; reflexivity.
Defined.

(** ** The table packer *)

Section Packer.

Implicit Types (fs pre mid post : list fact) (f g : fact).

Lemma table_index_range pc : 0 <= table_index pc < 256.
Proof.
  unfold table_index. change 0xFF with (Z.ones 8).
  rewrite Z.land_ones by lia. apply Z.mod_pos_bound. lia.
Qed.

(** Addresses that differ by a multiple of 1024 share the slot. *)
Lemma table_index_congruent pc1 pc2 :
  (pc2 - pc1) mod 1024 = 0 → table_index pc1 = table_index pc2.
Proof.
  intros H. apply Z.mod_divide in H as [q Hq]; [|lia].
  unfold table_index. change 0xFF with (Z.ones 8).
  rewrite !Z.land_ones, !Z.shiftr_div_pow2 by lia.
  replace pc2 with (pc1 + (q * 256) * 2 ^ 2) by lia.
  rewrite Z.div_add by lia.
  replace (2 ^ 8) with 256 by reflexivity.
  by rewrite Z.mod_add by lia.
Qed.

Lemma build_table_snoc fs f :
  build_table (fs ++ [f]) = <[table_index f.1.1 := pack_entry f]> (build_table fs).
Proof. unfold build_table. by rewrite fold_left_app. Qed.

Lemma build_table_app_other fs post i :
  (∀ g, g ∈ post → table_index g.1.1 ≠ i) →
  build_table (fs ++ post) !! i = build_table fs !! i.
Proof.
  induction post as [|g post IH] using rev_ind; intros Hpost.
  - by rewrite app_nil_r.
  - rewrite app_assoc, build_table_snoc, lookup_insert_ne.
    + apply IH. intros g' Hg'. apply Hpost. set_solver.
    + apply Hpost. set_solver.
Qed.

(** The slot of a fact holds its record once no later fact of the
    sequence shares the slot. *)
Lemma build_table_last fs f post :
  (∀ g, g ∈ post → table_index g.1.1 ≠ table_index f.1.1) →
  build_table (fs ++ f :: post) !! table_index f.1.1 = Some (pack_entry f).
Proof.
  intros Hpost.
  rewrite (assoc_L (++) fs [f] post : fs ++ f :: post = (fs ++ [f]) ++ post).
  rewrite build_table_app_other by done.
  by rewrite build_table_snoc, lookup_insert_eq.
Qed.

Lemma generate_branch_mem_lookup fs i :
  0 <= i < 256 →
  generate_branch_mem fs !! Z.to_nat i = Some (slot_line (build_table fs) i).
Proof.
  intros Hi. unfold generate_branch_mem.
  rewrite list_lookup_fmap, lookup_seq_lt by lia. simpl.
  by rewrite Z2Nat.id by lia.
Qed.

End Packer.

(** C9. When a fact sequence holds two facts whose addresses differ by a
    multiple of 1024, both have the same table index, and the slot of that
    index holds exactly the packed record of the one supplied later (the last
    fact of that slot in the sequence): building the table is total, and
    the record is that of the later fact alone. The slot's line of the
    file is that record in hexadecimal. *)
Theorem C9_collision_last_write_wins
    (pre mid post : list fact) (f1 f2 : fact) :
  (f2.1.1 - f1.1.1) mod 1024 = 0 →
  (∀ g, g ∈ post → table_index g.1.1 ≠ table_index f2.1.1) →
  let fs := pre ++ f1 :: mid ++ f2 :: post in
  let slot := table_index f2.1.1 in
  table_index f1.1.1 = slot ∧
  build_table fs !! slot = Some (pack_entry f2) ∧
  generate_branch_mem fs !! Z.to_nat slot = Some (format_018X (pack_entry f2)).
Proof.
  intros Hcong Hpost fs slot.
  assert (build_table fs !! slot = Some (pack_entry f2)) as Hslot.
  { subst fs slot.
    rewrite (assoc_L (++) pre (f1 :: mid) (f2 :: post)
             : pre ++ f1 :: mid ++ f2 :: post = (pre ++ f1 :: mid) ++ f2 :: post).
    by apply build_table_last. }
  split; [by apply table_index_congruent|]. split; [done|].
  rewrite generate_branch_mem_lookup by apply table_index_range.
  unfold slot_line. by rewrite Hslot.
Qed.

Lemma C9_collision_last_write_wins_witness :
  build_table [(0x40, true, 0x100); (0x8, false, 0xC); (0x440, false, 0x444)]
    !! 0x10 = Some (pack_entry (0x440, false, 0x444)).
Proof.
  apply (C9_collision_last_write_wins
           [] [(0x8, false, 0xC)] [] (0x40, true, 0x100) (0x440, false, 0x444)).
  - reflexivity.
  - intros g Hg. by apply elem_of_nil in Hg.
Defined.

(** ** Bit fields as arithmetic *)

Section Bits.

Lemma land_disjoint lo h n :
  0 <= n → 0 <= lo < 2 ^ n → Z.land lo (h * 2 ^ n) = 0.
Proof.
  intros Hn Hlo. apply Z.bits_inj'. intros i Hi.
  rewrite Z.land_spec, Z.bits_0.
  destruct (Z.lt_ge_cases i n).
  - by rewrite Z.mul_pow2_bits_low, andb_false_r.
  - rewrite <- (Z.mod_small lo (2 ^ n)) by done.
    by rewrite Z.mod_pow2_bits_high.
Qed.

Lemma lor_low_high lo h n :
  0 <= n → 0 <= lo < 2 ^ n → Z.lor lo (h * 2 ^ n) = lo + h * 2 ^ n.
Proof.
  intros. symmetry. apply Z.add_nocarry_lor. by apply land_disjoint.
Qed.

Lemma lor_high_low lo h n :
  0 <= n → 0 <= lo < 2 ^ n → Z.lor (h * 2 ^ n) lo = h * 2 ^ n + lo.
Proof. intros. rewrite Z.lor_comm, lor_low_high by done. lia. Qed.

Lemma land_shiftr_field w lo n :
  0 <= lo → 0 <= n → Z.land (Z.shiftr w lo) (Z.ones n) = field w lo n.
Proof.
  intros. unfold field. by rewrite Z.land_ones, Z.shiftr_div_pow2.
Qed.

Lemma field_mask w lo n m :
  m = Z.ones n → 0 <= lo → 0 <= n → Z.land (Z.shiftr w lo) m = field w lo n.
Proof. intros ->. apply land_shiftr_field. Qed.

Lemma field_range w lo n : 0 <= n → 0 <= field w lo n < 2 ^ n.
Proof. intros. apply Z.mod_pos_bound. by apply Z.pow_pos_nonneg. Qed.

Lemma jal_offset_fields w :
  jal_offset w =
    (if field w 31 1 =? 0 then 0 else 0xFFE00000)
    + (field w 31 1 * 2 ^ 20 + field w 12 8 * 2 ^ 12
       + field w 20 1 * 2 ^ 11 + field w 21 10 * 2).
Proof.
  unfold jal_offset.
  rewrite (field_mask w 31 1 0x1), (field_mask w 21 10 0x3FF),
    (field_mask w 20 1 0x1), (field_mask w 12 8 0xFF) by (done || lia).
  rewrite !Z.shiftl_mul_pow2 by lia.
  pose proof (field_range w 31 1 ltac:(lia)) as Ha.
  pose proof (field_range w 12 8 ltac:(lia)) as Hb.
  pose proof (field_range w 20 1 ltac:(lia)) as Hc.
  pose proof (field_range w 21 10 ltac:(lia)) as Hd.
  set (a := field w 31 1) in *. set (b := field w 12 8) in *.
  set (c := field w 20 1) in *. set (d := field w 21 10) in *.
  change (2 ^ 1) with 2 in *. change (2 ^ 8) with 256 in *.
  change (2 ^ 10) with 1024 in *.
  rewrite (lor_high_low (b * 2 ^ 12) a 20) by lia.
  replace (a * 2 ^ 20 + b * 2 ^ 12) with ((a * 2 ^ 8 + b) * 2 ^ 12) by lia.
  rewrite (lor_high_low (c * 2 ^ 11) _ 12) by lia.
  replace ((a * 2 ^ 8 + b) * 2 ^ 12 + c * 2 ^ 11)
    with ((a * 2 ^ 9 + b * 2 + c) * 2 ^ 11) by lia.
  rewrite (lor_high_low (d * 2 ^ 1) _ 11) by lia.
  destruct (Z.eqb_spec a 0) as [E|E]; simpl.
  - lia.
  - change 0xFFE00000 with (2047 * 2 ^ 21).
    rewrite (lor_low_high _ 2047 21) by lia. lia.
Qed.

(** The offset the deriver reads from a JAL word is the sign-extended
    J-type immediate, modulo 2^32. *)
Lemma jal_target_j_immediate pc w :
  Z.land (pc + jal_offset w) 0xFFFFFFFF = (pc + j_immediate w) mod 2 ^ 32.
Proof.
  change 0xFFFFFFFF with (Z.ones 32). rewrite Z.land_ones by lia.
  rewrite jal_offset_fields. unfold j_immediate.
  pose proof (field_range w 31 1 ltac:(lia)) as Ha.
  set (a := field w 31 1) in *. change (2 ^ 1) with 2 in Ha.
  destruct (Z.eqb_spec a 0) as [E|E].
  - f_equal. lia.
  - assert (a = 1) as -> by lia.
    rewrite <- (Z.mod_add (pc + _) (-1) (2 ^ 32)) by lia.
    f_equal. lia.
Qed.

End Bits.

(** C4 (amended). For every word [w] of the sequence whose low seven bits
    are 0x6F, at index [k] and so at address [pc = 4 * k], the deriver
    records at that address exactly one kind of fact: taken is true and the
    target is [(pc + imm) mod 2^32], where [imm] is the sign-extended J-type
    immediate of the base RISC-V encoding (word bit 31 is imm[20], bits 30:21
    are imm[10:1], bit 20 is imm[11], bits 19:12 are imm[19:12]). *)
Theorem C4_jal_fact_standard_immediate
    (ws : list Z) (k : nat) (w : Z) (taken : bool) (target : Z) :
  ws !! k = Some w →
  Z.land w 0x7F = 0x6F →
  (4 * Z.of_nat k, taken, target) ∈ generate_from_assembly ws ↔
    taken = true ∧ target = (4 * Z.of_nat k + j_immediate w) mod 2 ^ 32.
Proof.
  intros Hk Hop. rewrite <- jal_target_j_immediate. split.
  - intros Hf. eapply fact_of_word in Hf; [|done..].
    revert Hf. unfold derive. rewrite Hop. simpl.
    intros ?%list_elem_of_singleton. by simplify_eq.
  - intros [-> ->]. apply elem_of_generate_from_assembly. exists k, w.
    split; [done|]. unfold derive. rewrite Hop. simpl.
    by apply list_elem_of_singleton.
Qed.

Lemma C4_jal_fact_standard_immediate_witness :
  [0x13; 0x0010006F] !! 1%nat = Some 0x0010006F ∧
  Z.land 0x0010006F 0x7F = 0x6F ∧
  (4 * Z.of_nat 1, true, 0x804) ∈ generate_from_assembly [0x13; 0x0010006F].
Proof.
  split; [reflexivity|]. split; [reflexivity|].
  apply (C4_jal_fact_standard_immediate [0x13; 0x0010006F] 1 0x0010006F true 0x804);
    [reflexivity | reflexivity |].
  split; reflexivity.
Defined.

(** C4 as stated fails: the word 0x0010006F at address 0 has low seven
    bits 0x6F; the deriver records target 0x800 for it, while the stated
    formula, the upper twenty bits sign-extended from bit 31, gives
    0x100000. *)
Lemma C4_counterexample :
  Z.land 0x0010006F 0x7F = 0x6F ∧
  generate_from_assembly [0x0010006F] = [(0, true, 0x800)] ∧
  spec_jal_target 0 0x0010006F = 0x100000 ∧
  ¬ (∀ w pc taken target,
       Z.land w 0x7F = 0x6F →
       (pc, taken, target) ∈ derive (pc / 4) pc w →
       taken = true ∧ target = spec_jal_target pc w).
Proof.
  split; [reflexivity|]. split; [reflexivity|]. split; [reflexivity|].
  intros H.
  destruct (H 0x0010006F 0 true 0x800 eq_refl) as [_ Ht].
  - vm_compute. apply list_elem_of_here.
  - vm_compute in Ht. discriminate.
Qed.

(** ** The label table across calls of [assemble] *)

Section Labels.

Implicit Types (L : gmap string Z) (lines : list string).

(** Labels already in the table survive the first pass unless the text
    defines them again. *)
Lemma pass1_step_union L0 L a l :
  pass1_step (L0 ∪ L, a) l
  = ((pass1_step (L0, a) l).1 ∪ L, (pass1_step (L0, a) l).2).
Proof.
  unfold pass1_step.
  destruct (blank_or_comment (Py.strip l)); [done|].
  destruct (Py.contains ":" (Py.strip l)); [|done].
  simpl. by rewrite insert_union_l.
Qed.

Lemma pass1_fold_union lines : ∀ L0 L a,
  fold_left pass1_step lines (L0 ∪ L, a)
  = ((fold_left pass1_step lines (L0, a)).1 ∪ L,
     (fold_left pass1_step lines (L0, a)).2).
Proof.
  induction lines as [|l lines IH]; intros L0 L a; cbn [fold_left]; [done|].
  rewrite pass1_step_union.
  destruct (pass1_step (L0, a) l) as [L0' a']. apply IH.
Qed.

Lemma pass1_union L lines : pass1 L lines = pass1 ∅ lines ∪ L.
Proof.
  unfold pass1. rewrite <- (left_id_L ∅ (∪) L) at 1.
  by rewrite pass1_fold_union.
Qed.

Lemma union_covered (L1 L2 : gmap string Z) :
  dom L2 ⊆ dom L1 → L1 ∪ L2 = L1.
Proof.
  intros Hdom. apply map_eq. intros i.
  destruct (L1 !! i) as [v|] eqn:E.
  - by apply lookup_union_Some_l.
  - rewrite lookup_union_r by done.
    apply not_elem_of_dom. apply not_elem_of_dom in E. set_solver.
Qed.

Lemma assemble_labels self s :
  labels (assemble self s).1
  = pass1 (labels self) (source_lines s).
Proof. done. Qed.

Lemma assemble_result self s :
  (assemble self s).2
  = pass2 (labels (assemble self s).1) (source_lines s) 0 [].
Proof. done. Qed.

End Labels.

(** C7 (amended). The label table belongs to the assembler instance and
    [assemble] never clears it. Calling [assemble s2] on an instance that has
    assembled [s1] returns the same result as on a fresh instance whenever
    every label left in the table by assembling [s1] is defined again by
    [s2]. *)
Theorem C7_reuse_same_when_labels_redefined (s1 s2 : string) :
  let used := (assemble new_assembler s1).1 in
  dom (labels used) ⊆ dom (labels (assemble new_assembler s2).1) →
  (assemble used s2).2 = (assemble new_assembler s2).2.
Proof.
  intros used Hdom.
  rewrite !assemble_result. f_equal.
  rewrite !assemble_labels in *. simpl labels in *.
  rewrite (pass1_union (pass1 _ _)).
  by apply union_covered.
Qed.

Lemma C7_reuse_same_when_labels_redefined_witness :
  (assemble (assemble new_assembler counter_program).1 loop_program).2
  = (assemble new_assembler loop_program).2.
Proof.
  apply (C7_reuse_same_when_labels_redefined counter_program loop_program).
  apply (bool_decide_unpack _). vm_compute. exact I.
Defined.

(** C7 as stated fails: after assembling a text that defines [loop], the
    same instance assembles a branch to [loop] from a text that does not
    define it, while a fresh instance raises on that text. *)
Lemma C7_counterexample :
  (assemble (assemble new_assembler counter_program).1 "beq x0, x0, loop").2
    = Ok [0x63] ∧
  (assemble new_assembler "beq x0, x0, loop").2 = Raise ValueError.
Proof. split; vm_compute; reflexivity. Qed.

(** ** Unresolvable targets *)

Section UnresolvedTarget.

Variable L : gmap string Z.

Lemma raises_bind {A B} (r : result A) (k : A → result B) :
  raises r ∨ (∃ a, r = Ok a ∧ raises (k a)) → raises (r ≫= k).
Proof. intros [H | (a & -> & H)]; [by destruct r | done]. Qed.

Lemma index_nth {A} (l : list A) i a : nth_error l i = Some a → Py.index l i = Ok a.
Proof. unfold Py.index. by intros ->. Qed.

Lemma index_below {A} (l : list A) i j a :
  nth_error l j = Some a → (i < j)%nat → ∃ b, Py.index l i = Ok b.
Proof.
  intros Hj Hij. unfold Py.index.
  destruct (nth_error l i) eqn:E; [by eexists|].
  apply nth_error_None in E.
  assert (nth_error l j = None) by (apply nth_error_None; lia). congruence.
Qed.

Lemma resolve_offset_unknown target a :
  L !! target = None → Py.int0 target = Raise ValueError →
  resolve_offset L target a = Raise ValueError.
Proof. unfold resolve_offset. by intros -> ->. Qed.

(** Either register fails to parse, or the target does: the call
    raises. *)
Ltac step_reg :=
  match goal with
  | |- raises (_parse_register ?r ≫= _) =>
      apply raises_bind; destruct (_parse_register r);
      [right; eexists; split; [done|] | by left]
  end.

Lemma _encode_branch_unknown opcode operands target a :
  nth_error operands 2 = Some target →
  L !! target = None → Py.int0 target = Raise ValueError →
  raises (_encode_branch L opcode operands a).
Proof.
  intros Ht HL Hint. unfold _encode_branch.
  destruct (index_below operands 0 2 target Ht ltac:(lia)) as [r1 ->].
  destruct (index_below operands 1 2 target Ht ltac:(lia)) as [r2 ->].
  rewrite (index_nth _ _ _ Ht). cbn [mbind result_bind].
  step_reg. cbn [mbind result_bind]. step_reg. cbn [mbind result_bind].
  by rewrite resolve_offset_unknown.
Qed.

Lemma _encode_jal_unknown operands target a :
  nth_error operands 1 = Some target →
  L !! target = None → Py.int0 target = Raise ValueError →
  raises (_encode_jump L "jal" operands a).
Proof.
  intros Ht HL Hint. unfold _encode_jump. cbn [String.eqb Ascii.eqb Bool.eqb].
  destruct (index_below operands 0 1 target Ht ltac:(lia)) as [r1 ->].
  rewrite (index_nth _ _ _ Ht). cbn [mbind result_bind].
  step_reg. cbn [mbind result_bind].
  by rewrite resolve_offset_unknown.
Qed.

Lemma encode_line_unknown line target a :
  target_token line = Some target →
  L !! target = None → Py.int0 target = Raise ValueError →
  raises (encode_line L (Py.strip line) a).
Proof.
  unfold target_token, encode_line. intros Ht HL Hint.
  destruct (Py.split _) as [|p0 operands]; [done|].
  cbn [Py.index nth_error mbind result_bind List.tl].
  destruct (mem (Py.lower p0) ["beq"; "bne"; "blt"; "bge"]) eqn:Eb.
  { by eapply _encode_branch_unknown. }
  destruct (String.eqb_spec (Py.lower p0) "jal") as [->|]; [|done].
  by eapply _encode_jal_unknown.
Qed.

(** An instruction line whose encoding raises makes the second pass
    raise, wherever it stands. *)
Lemma pass2_raises lines line :
  line ∈ lines →
  skipped (Py.strip line) = false →
  (∀ a, raises (encode_line L (Py.strip line) a)) →
  ∀ a acc, raises (pass2 L lines a acc).
Proof.
  intros Hin Hsk Hr.
  induction lines as [|l lines IH]; intros a acc; [by apply elem_of_nil in Hin|].
  cbn [pass2].
  apply elem_of_cons in Hin as [<- | Hin].
  - rewrite Hsk. apply raises_bind. left. apply Hr.
  - destruct (skipped (Py.strip l)); [by apply IH|].
    apply raises_bind.
    destruct (encode_line L (Py.strip l) a) as [w|e]; [right | by left].
    eexists; split; [done|]. by apply IH.
Qed.

End UnresolvedTarget.

(** C10 (amended). If a source text holds an instruction line with a branch
    ([beq], [bne], [blt], [bge]) or a [jal] whose target token is not a label
    of the table after the first pass (on a fresh instance: no label the
    text defines) and is not accepted by [int(token, 0)], then [assemble]
    raises: no word list is returned. ([int(token, 0)] accepts more than
    decimal and [0x] literals: also [0o] and [0b] literals and single
    underscores between digits.) *)
Theorem C10_unresolvable_target_raises
    (self : RISCVAssembler) (assembly_code line target : string) :
  line ∈ source_lines assembly_code →
  skipped (Py.strip line) = false →
  target_token line = Some target →
  labels (assemble self assembly_code).1 !! target = None →
  Py.int0 target = Raise ValueError →
  raises (assemble self assembly_code).2.
Proof.
  intros Hin Hsk Ht HL Hint.
  rewrite assemble_result. apply (pass2_raises _ _ line); [done | done |].
  intros a. by apply (encode_line_unknown _ _ target).
Qed.

Lemma C10_unresolvable_target_raises_witness :
  raises (assemble new_assembler dangling_program).2.
Proof.
  apply (C10_unresolvable_target_raises new_assembler dangling_program
           "bne x1, x0, done" "done").
  - vm_compute. apply list_elem_of_further, list_elem_of_here.
  - reflexivity.
  - reflexivity.
  - vm_compute. reflexivity.
  - reflexivity.
Defined.

(** C10 as stated fails: the target [0b100] is no label of the text and is
    neither a decimal nor a [0x] literal, yet the text assembles, with
    offset 4. *)
Lemma C10_counterexample :
  target_token "beq x0, x0, 0b100" = Some "0b100" ∧
  labels (assemble new_assembler "beq x0, x0, 0b100").1 !! "0b100" = None ∧
  spec_decimal_or_hex "0b100" = false ∧
  (assemble new_assembler "beq x0, x0, 0b100").2 = Ok [branch_word 0 0 0 4].
Proof. repeat split; vm_compute; reflexivity. Qed.

(** ** Register operands in the encoded word *)

Section Registers.




End Registers.


(** ** The branch word *)

Section BranchWord.

Lemma land_field_mask x k n m :
  m = Z.ones n * 2 ^ k → 0 <= k → 0 <= n →
  Z.land x m = field x k n * 2 ^ k.
Proof.
  intros -> Hk Hn. apply Z.bits_inj'. intros i Hi.
  rewrite Z.land_spec. destruct (Z.lt_ge_cases i k).
  - by rewrite !Z.mul_pow2_bits_low, andb_false_r by lia.
  - rewrite !Z.mul_pow2_bits by lia. unfold field.
    destruct (Z.lt_ge_cases (i - k) n).
    + rewrite Z.ones_spec_low, Z.mod_pow2_bits_low, Z.div_pow2_bits by lia.
      rewrite andb_true_r. f_equal. lia.
    + by rewrite Z.ones_spec_high, Z.mod_pow2_bits_high, andb_false_r by lia.
Qed.

(** A field placed in an empty gap between a low part and a high part. *)
Lemma lor_mid lo d h k m :
  0 <= k <= m → 0 <= lo < 2 ^ k → 0 <= d < 2 ^ (m - k) →
  Z.lor (lo + h * 2 ^ m) (d * 2 ^ k) = lo + d * 2 ^ k + h * 2 ^ m.
Proof.
  intros Hkm Hlo Hd.
  assert (2 ^ m = 2 ^ (m - k) * 2 ^ k) as Hm
    by (rewrite <- Z.pow_add_r by lia; f_equal; lia).
  assert (0 < 2 ^ k) by (apply Z.pow_pos_nonneg; lia).
  assert (lo + d * 2 ^ k < 2 ^ m) by nia.
  rewrite <- (lor_low_high lo h m) by lia.
  rewrite <- Z.lor_assoc, (Z.lor_comm (h * 2 ^ m)), Z.lor_assoc.
  rewrite (lor_low_high lo d k) by lia.
  rewrite (lor_low_high _ h m) by nia. done.
Qed.

(** A field OR-ed onto an occupied position. *)
Lemma lor_onto lo u v n :
  0 <= n → 0 <= lo < 2 ^ n →
  Z.lor (lo + u * 2 ^ n) (v * 2 ^ n) = lo + Z.lor u v * 2 ^ n.
Proof.
  intros Hn Hlo.
  rewrite <- !(lor_low_high lo _ n) by done.
  rewrite <- Z.lor_assoc. f_equal.
  by rewrite <- !Z.shiftl_mul_pow2, Z.shiftl_lor by done.
Qed.

Lemma lor_funct3_bit f3 g :
  0 <= f3 < 8 → 0 <= g < 2 → 0 <= Z.lor f3 g < 8.
Proof.
  intros Hf Hg.
  assert (f3 = 0 ∨ f3 = 1 ∨ f3 = 2 ∨ f3 = 3 ∨ f3 = 4 ∨ f3 = 5 ∨ f3 = 6 ∨ f3 = 7)
    as Hc by lia.
  assert (g = 0 ∨ g = 1) as [-> | ->] by lia;
    destruct Hc as [->|[->|[->|[->|[->|[->|[->| ->]]]]]]]; by vm_compute.
Qed.

(** The word of a branch as a sum of its fields. *)
Lemma branch_word_sum f3 rs1 rs2 off :
  0 <= f3 < 8 → 0 <= rs1 < 32 → 0 <= rs2 < 32 →
  branch_word f3 rs1 rs2 off
  = 0x63 + field off 11 1 * 2 ^ 7 + field off 1 4 * 2 ^ 8
    + Z.lor f3 (field off 12 1) * 2 ^ 12
    + rs1 * 2 ^ 15 + rs2 * 2 ^ 20 + field off 5 6 * 2 ^ 25.
Proof.
  intros Hf3 Hrs1 Hrs2. unfold branch_word.
  rewrite (land_field_mask off 12 1 0x1000), (land_field_mask off 5 6 0x7E0),
    (land_field_mask off 1 4 0x1E), (land_field_mask off 11 1 0x800)
    by (done || lia).
  rewrite Z.shiftr_div_pow2, !Z.shiftl_mul_pow2 by lia.
  pose proof (field_range off 11 1 ltac:(lia)) as Ha.
  pose proof (field_range off 1 4 ltac:(lia)) as Hb.
  pose proof (field_range off 5 6 ltac:(lia)) as Hf.
  pose proof (field_range off 12 1 ltac:(lia)) as Hg.
  pose proof (lor_funct3_bit f3 (field off 12 1) Hf3 Hg) as Hfg.
  set (a := field off 11 1) in *. set (b := field off 1 4) in *.
  set (f := field off 5 6) in *. set (g := field off 12 1) in *.
  set (fg := Z.lor f3 g) in *.
  change (2 ^ 1) with 2 in *. change (2 ^ 4) with 16 in *.
  change (2 ^ 6) with 64 in *.
  replace (a * 2 ^ 11 / 16) with (a * 2 ^ 7)
    by (replace (a * 2 ^ 11) with (a * 2 ^ 7 * 16) by lia;
        by rewrite Z.div_mul by lia).
  rewrite (lor_low_high 0x63 f3 12) by lia.
  rewrite (lor_low_high _ rs1 15) by lia.
  rewrite (lor_low_high _ rs2 20) by lia.
  replace (0x63 + f3 * 2 ^ 12 + rs1 * 2 ^ 15 + rs2 * 2 ^ 20)
    with (0x63 + (f3 + rs1 * 8 + rs2 * 256) * 2 ^ 12) by lia.
  replace (b * 2 * 2 ^ 7) with (b * 2 ^ 8) by lia.
  rewrite (lor_mid 0x63 b _ 8 12) by (change (2 ^ (12 - 8)) with 16; lia).
  replace (0x63 + b * 2 ^ 8 + (f3 + rs1 * 8 + rs2 * 256) * 2 ^ 12)
    with (0x63 + (b + (f3 + rs1 * 8 + rs2 * 256) * 16) * 2 ^ 8) by lia.
  rewrite (lor_mid 0x63 a _ 7 8) by (change (2 ^ (8 - 7)) with 2; lia).
  replace (f * 2 ^ 5 * 2 ^ 20) with (f * 2 ^ 25) by lia.
  rewrite (lor_low_high _ f 25) by lia.
  replace (0x63 + a * 2 ^ 7 + (b + (f3 + rs1 * 8 + rs2 * 256) * 16) * 2 ^ 8
           + f * 2 ^ 25)
    with ((0x63 + a * 2 ^ 7 + b * 2 ^ 8)
          + (f3 + (rs1 + rs2 * 32 + f * 1024) * 2 ^ 3) * 2 ^ 12) by lia.
  rewrite (lor_onto _ _ g 12) by lia.
  rewrite (Z.lor_comm (f3 + _)).
  rewrite <- (lor_low_high f3 _ 3) by lia.
  rewrite Z.lor_assoc, (Z.lor_comm g f3). fold fg.
  rewrite (lor_low_high fg _ 3) by lia. lia.
Qed.

(** The fields of the word of a branch. *)
Lemma branch_word_fields (f3 rs1 rs2 off : Z) :
  0 <= f3 < 8 → 0 <= rs1 < 32 → 0 <= rs2 < 32 →
  let w := branch_word f3 rs1 rs2 off in
  field w 31 1 = 0 ∧
  field w 12 3 = Z.lor f3 (field off 12 1) ∧
  field w 25 6 = field off 5 6 ∧
  field w 8 4 = field off 1 4 ∧
  field w 7 1 = field off 11 1 ∧
  field w 0 7 = 0x63 ∧ field w 15 5 = rs1 ∧ field w 20 5 = rs2.
Proof.
  intros Hf3 Hrs1 Hrs2 w. subst w. rewrite branch_word_sum by done.
  pose proof (field_range off 11 1 ltac:(lia)) as Ha.
  pose proof (field_range off 1 4 ltac:(lia)) as Hb.
  pose proof (field_range off 5 6 ltac:(lia)) as Hf.
  pose proof (field_range off 12 1 ltac:(lia)) as Hg.
  pose proof (lor_funct3_bit f3 (field off 12 1) Hf3 Hg) as Hfg.
  set (a := field off 11 1) in *. set (b := field off 1 4) in *.
  set (f := field off 5 6) in *. set (g := field off 12 1) in *.
  set (fg := Z.lor f3 g) in *.
  unfold field.
  change (2 ^ 0) with 1. change (2 ^ 1) with 2 in *. change (2 ^ 3) with 8.
  change (2 ^ 4) with 16 in *. change (2 ^ 5) with 32.
  change (2 ^ 6) with 64 in *. change (2 ^ 7) with 128.
  change (2 ^ 8) with 256. change (2 ^ 12) with 4096.
  change (2 ^ 15) with 32768. change (2 ^ 20) with 1048576.
  change (2 ^ 25) with 33554432. change (2 ^ 31) with 2147483648.
  repeat split; Z.div_mod_to_equations; lia.
Qed.

Lemma branch_offset_fields w :
  branch_offset w =
    (if field w 31 1 =? 0 then 0 else 0xFFFFE000)
    + (field w 31 1 * 2 ^ 12 + field w 7 1 * 2 ^ 11
       + field w 25 6 * 2 ^ 5 + field w 8 4 * 2).
Proof.
  unfold branch_offset.
  rewrite (field_mask w 31 1 0x1), (field_mask w 25 6 0x3F),
    (field_mask w 8 4 0xF), (field_mask w 7 1 0x1) by (done || lia).
  rewrite !Z.shiftl_mul_pow2 by lia.
  pose proof (field_range w 31 1 ltac:(lia)) as Ha.
  pose proof (field_range w 7 1 ltac:(lia)) as Hb.
  pose proof (field_range w 25 6 ltac:(lia)) as Hc.
  pose proof (field_range w 8 4 ltac:(lia)) as Hd.
  set (a := field w 31 1) in *. set (b := field w 7 1) in *.
  set (c := field w 25 6) in *. set (d := field w 8 4) in *.
  change (2 ^ 1) with 2 in *. change (2 ^ 4) with 16 in *.
  change (2 ^ 6) with 64 in *.
  rewrite (lor_high_low (b * 2 ^ 11) a 12) by lia.
  replace (a * 2 ^ 12 + b * 2 ^ 11) with ((a * 2 + b) * 2 ^ 11) by lia.
  rewrite (lor_high_low (c * 2 ^ 5) _ 11) by lia.
  replace ((a * 2 + b) * 2 ^ 11 + c * 2 ^ 5)
    with ((a * 2 ^ 7 + b * 2 ^ 6 + c) * 2 ^ 5) by lia.
  rewrite (lor_high_low (d * 2) _ 5) by lia.
  destruct (Z.eqb_spec a 0) as [E|E]; simpl.
  - lia.
  - change 0xFFFFE000 with (524287 * 2 ^ 13).
    rewrite (lor_low_high _ 524287 13) by lia. lia.
Qed.

(** The offset read back from the word of a branch: bits 11:1 of the
    encoded offset, and no sign. *)
Lemma branch_offset_of_branch_word f3 rs1 rs2 off :
  0 <= f3 < 8 → 0 <= rs1 < 32 → 0 <= rs2 < 32 →
  branch_offset (branch_word f3 rs1 rs2 off) = 2 * field off 1 11.
Proof.
  intros Hf3 Hrs1 Hrs2. rewrite branch_offset_fields.
  destruct (branch_word_fields f3 rs1 rs2 off Hf3 Hrs1 Hrs2)
    as (-> & _ & -> & -> & -> & _).
  simpl. unfold field.
  change (2 ^ 1) with 2. change (2 ^ 4) with 16. change (2 ^ 5) with 32.
  change (2 ^ 6) with 64. change (2 ^ 11) with 2048.
  Z.div_mod_to_equations. lia.
Qed.

(** Hence the round trip of a branch holds for the even offsets from 0
    to 4094, and for no negative offset. *)
Lemma branch_round_trip_forward f3 rs1 rs2 off a :
  0 <= f3 < 8 → 0 <= rs1 < 32 → 0 <= rs2 < 32 →
  0 <= off < 4096 → off mod 2 = 0 →
  Z.land (a + branch_offset (branch_word f3 rs1 rs2 off)) 0xFFFFFFFF
  = (a + off) mod 2 ^ 32.
Proof.
  intros Hf3 Hrs1 Hrs2 Hoff Heven.
  rewrite branch_offset_of_branch_word by done.
  change 0xFFFFFFFF with (Z.ones 32). rewrite Z.land_ones by lia.
  f_equal. f_equal. unfold field.
  change (2 ^ 1) with 2. change (2 ^ 11) with 2048.
  Z.div_mod_to_equations. lia.
Qed.

Lemma branch_offset_never_negative f3 rs1 rs2 off :
  0 <= f3 < 8 → 0 <= rs1 < 32 → 0 <= rs2 < 32 →
  0 <= branch_offset (branch_word f3 rs1 rs2 off) < 4096.
Proof.
  intros. rewrite branch_offset_of_branch_word by done.
  pose proof (field_range off 1 11 ltac:(lia)) as Hr.
  change (2 ^ 11) with 2048 in Hr. lia.
Qed.

(** The offset read back from the word of a [jal] with a forward offset
    below 2^20: the offset without its low twelve bits. *)
Lemma jal_offset_of_jal_word rd off :
  0 <= rd < 32 → 0 <= off < 2 ^ 20 →
  jal_offset (jal_word rd off) = off - off mod 4096.
Proof.
  intros Hrd Hoff. rewrite jal_offset_fields. unfold jal_word.
  rewrite (land_field_mask off 12 20 0xFFFFF000) by (done || lia).
  rewrite Z.shiftl_mul_pow2 by lia.
  pose proof (field_range off 12 20 ltac:(lia)) as Hu.
  rewrite (lor_low_high 0x6F rd 7) by lia.
  rewrite (lor_low_high _ _ 12) by lia.
  assert (field off 12 20 = off / 4096) as ->.
  { unfold field. change (2 ^ 12) with 4096. apply Z.mod_small.
    change (2 ^ 20) with 1048576 in *. Z.div_mod_to_equations. lia. }
  unfold field.
  change (2 ^ 1) with 2. change (2 ^ 7) with 128. change (2 ^ 8) with 256.
  change (2 ^ 10) with 1024. change (2 ^ 11) with 2048.
  change (2 ^ 12) with 4096. change (2 ^ 20) with 1048576 in *.
  change (2 ^ 21) with 2097152. change (2 ^ 31) with 2147483648.
  assert ((111 + rd * 128 + off / 4096 * 4096) / 2147483648 mod 2 = 0) as ->
    by (Z.div_mod_to_equations; lia).
  assert ((111 + rd * 128 + off / 4096 * 4096) / 1048576 mod 2 = 0) as ->
    by (Z.div_mod_to_equations; lia).
  assert ((111 + rd * 128 + off / 4096 * 4096) / 2097152 mod 1024 = 0) as ->
    by (Z.div_mod_to_equations; lia).
  simpl. Z.div_mod_to_equations. lia.
Qed.

End BranchWord.

(** C3. What [_encode_branch] builds, for in-range funct3 and registers and
    any offset: offset bits 10:5 are in word bits 30:25, bits 4:1 in word
    bits 11:8 and bit 11 in word bit 7, and opcode and registers are in
    their fields, as the specification has it; but offset bit 12 is not moved
    to word bit 31.
    It stays at word bit 12, OR-ed into the low bit of funct3, and word bit
    31 is always 0. *)
Theorem C3_offset_bit12_left_in_funct3 (f3 rs1 rs2 off : Z) :
  0 <= f3 < 8 → 0 <= rs1 < 32 → 0 <= rs2 < 32 →
  let w := branch_word f3 rs1 rs2 off in
  field w 31 1 = 0 ∧
  field w 12 3 = Z.lor f3 (field off 12 1) ∧
  field w 25 6 = field off 5 6 ∧
  field w 8 4 = field off 1 4 ∧
  field w 7 1 = field off 11 1 ∧
  field w 0 7 = 0x63 ∧ field w 15 5 = rs1 ∧ field w 20 5 = rs2.
Proof. apply branch_word_fields. Qed.

(** The failing input of C3: [beq x0, x0, loop] four bytes after [loop].
    Offset -4 has bit 12 set; the word has bit 31 clear and the funct3 of
    [bne]. *)
Lemma C3_offset_bit12_left_in_funct3_witness :
  field (-4) 12 1 = 1 ∧
  field (branch_word 0 0 0 (-4)) 31 1 = 0 ∧
  field (branch_word 0 0 0 (-4)) 12 3 = 1.
Proof.
  split; [reflexivity|].
  destruct (C3_offset_bit12_left_in_funct3 0 0 0 (-4))
    as (H31 & H12 & _); [lia | lia | lia |].
  split; [exact H31 | exact H12].
Defined.

(** ** Assembling, then deriving the facts *)

(** C1. The round trip fails on the code. A [beq] at address 4 whose target
    is the label [loop] at address 0 is decoded with target 4096, and a
    [jal] at address 0 whose target is the label [end] at address 8 is
    decoded with target 0. *)
Theorem C1_round_trip_fails :
  labels (assemble new_assembler backward_branch_program).1 !! "loop" = Some 0 ∧
  (assemble new_assembler backward_branch_program).2 = Ok [0x13; 0x7E001EE3] ∧
  assemble_and_derive backward_branch_program = Ok [(4, false, 4096)] ∧
  labels (assemble new_assembler forward_jal_program).1 !! "end" = Some 8 ∧
  (assemble new_assembler forward_jal_program).2 = Ok [0x6F; 0x13; 0x13] ∧
  assemble_and_derive forward_jal_program = Ok [(0, true, 0)].
Proof. repeat split; vm_compute; reflexivity. Qed.

(** C2. Assembling the five-instruction loop program yields exactly five
    words; the label [loop] is at address 8 and the [bne] at address 16 is
    encoded with the resolved offset 8 - 16 = -8. Decoding the [bne] word
    with the static deriver does not give the target 8: offset bit 12 was
    left at word bit 12, so the deriver reads the offset 4088 and records
    the target 4104. *)
Theorem C2_loop_program_decoded_target :
  ∃ w0 w1 w2 w3 w4,
    (assemble new_assembler loop_program).2 = Ok [w0; w1; w2; w3; w4] ∧
    labels (assemble new_assembler loop_program).1 !! "loop" = Some 8 ∧
    resolve_offset (labels (assemble new_assembler loop_program).1) "loop" 16
      = Ok (-8) ∧
    w4 = branch_word 1 1 0 (-8) ∧
    branch_offset w4 = 4088 ∧
    assemble_and_derive loop_program = Ok [(16, true, 4104)].
Proof.
  exists 0x00A00093, 0x00000113, 0x00110113, 0xFFF08093, 0x7E009CE3.
  repeat split; vm_compute; reflexivity.
Qed.

(** The encoders of branches, [jal], R-type and I-type instructions read a
    fixed number of operands: tokens after them, such as those of a
    trailing comment, are ignored. The encoder of [jalr] reads a third
    operand when there is one. *)
Lemma operands_beyond_ignored (L : gmap string Z) (op a b c : string)
    (rest : list string) (addr : Z) :
  _encode_branch L op (a :: b :: c :: rest) addr = _encode_branch L op [a; b; c] addr ∧
  _encode_jump L "jal" (a :: b :: rest) addr = _encode_jump L "jal" [a; b] addr ∧
  _encode_rtype op (a :: b :: c :: rest) = _encode_rtype op [a; b; c] ∧
  _encode_itype op (a :: b :: c :: rest) = _encode_itype op [a; b; c].
Proof. done. Qed.

Lemma jalr_third_operand_read (L : gmap string Z) (a b c : string)
    (rest : list string) (addr : Z) :
  Py.int0 c = Raise ValueError →
  raises (_encode_jump L "jalr" (a :: b :: c :: rest) addr).
Proof.
  intros Hc. unfold _encode_jump.
  cbn [String.eqb Ascii.eqb Bool.eqb Py.index nth_error mbind result_bind].
  destruct (_parse_register a); [|done]. cbn [mbind result_bind].
  destruct (_parse_register b); [|done]. cbn [mbind result_bind].
  replace (2 <? length (a :: b :: c :: rest))%nat with true
    by (symmetry; apply Nat.ltb_lt; simpl; lia).
  by rewrite Hc.
Qed.

(** C6. Text after a [#] inside a line is not removed. A [jalr] with two
    operands assembles, and raises once a trailing comment is added; an
    [addi] line whose trailing comment holds a [:] is taken for a label
    definition and emits no word. A trailing comment without [:] leaves
    the [addi] word as it is. *)
Theorem C6_trailing_comment_changes_result :
  (assemble new_assembler "jalr x1, x2").2 = Ok [0x000100E7] ∧
  (assemble new_assembler "jalr x1, x2 # link").2 = Raise ValueError ∧
  (assemble new_assembler "addi x1, x0, 10").2 = Ok [0x00A00093] ∧
  (assemble new_assembler "addi x1, x0, 10 # ten").2 = Ok [0x00A00093] ∧
  (assemble new_assembler "addi x1, x0, 10 # note: ten").2 = Ok [] ∧
  labels (assemble new_assembler "addi x1, x0, 10 # note: ten").1
    !! "addi x1, x0, 10 # note" = Some 0.
Proof. repeat split; vm_compute; reflexivity. Qed.

(** * Further properties *)

(** ** The two passes of [assemble] *)

Section Passes.

Implicit Types (L : gmap string Z) (lines ls : list string) (ws : list Z).

Lemma pass2_encode_all L lines : ∀ a acc,
  pass2 L lines a acc
  = (ws ← encode_all L (instruction_lines lines) a; Ok (acc ++ ws)).
Proof.
  induction lines as [|l lines IH]; intros a acc.
  - cbn. by rewrite app_nil_r.
  - cbn [pass2 instruction_lines List.filter].
    destruct (skipped (Py.strip l)); cbn [negb]; [apply IH|].
    cbn [encode_all]. destruct (encode_line L (Py.strip l) a) as [w|e]; [|done].
    cbn [mbind result_bind]. rewrite IH. fold (instruction_lines lines).
    destruct (encode_all L (instruction_lines lines) (a + 4)) as [ws|e]; [|done].
    cbn. by rewrite <- app_assoc.
Qed.

Lemma encode_all_ok L ls : ∀ a ws,
  encode_all L ls a = Ok ws →
  length ws = length ls ∧
  ∀ k l, ls !! k = Some l →
    ∃ w, ws !! k = Some w ∧
         encode_line L (Py.strip l) (a + 4 * Z.of_nat k) = Ok w.
Proof.
  induction ls as [|l ls IH]; intros a ws; cbn [encode_all].
  - intros [= <-]. split; [done|]. intros k l Hk. by destruct k.
  - destruct (encode_line L (Py.strip l) a) as [w|e] eqn:Ew; [|done].
    cbn [mbind result_bind].
    destruct (encode_all L ls (a + 4)) as [ws'|e] eqn:Ews; [|done].
    intros [= <-]. destruct (IH _ _ Ews) as [Hlen Hk]. split.
    + simpl. by rewrite Hlen.
    + intros [|k] l' Hl'.
      * injection Hl' as <-. exists w. split; [done|].
        by rewrite Z.mul_0_r, Z.add_0_r.
      * destruct (Hk k l' Hl') as (w' & Hw' & He). exists w'. split; [done|].
        by replace (a + 4 * Z.of_nat (S k)) with (a + 4 + 4 * Z.of_nat k) by lia.
Qed.

Lemma encode_all_raises L ls : ∀ a,
  raises (encode_all L ls a) ↔
  ∃ k l, ls !! k = Some l ∧
         raises (encode_line L (Py.strip l) (a + 4 * Z.of_nat k)).
Proof.
  induction ls as [|l ls IH]; intros a; cbn [encode_all].
  - split; [done|]. by intros ([|?] & ? & ? & _).
  - destruct (encode_line L (Py.strip l) a) as [w|e] eqn:Ew.
    + cbn [mbind result_bind].
      assert (raises (ws ← encode_all L ls (a + 4); Ok (w :: ws))
              ↔ raises (encode_all L ls (a + 4))) as ->
        by (by destruct (encode_all L ls (a + 4))).
      rewrite IH. split.
      * intros (k & l' & Hk & Hr). exists (S k), l'. split; [done|].
        by replace (a + 4 * Z.of_nat (S k)) with (a + 4 + 4 * Z.of_nat k) by lia.
      * intros ([|k] & l' & Hk & Hr).
        { injection Hk as <-. rewrite Z.mul_0_r, Z.add_0_r, Ew in Hr. done. }
        exists k, l'. split; [done|].
        by replace (a + 4 + 4 * Z.of_nat k) with (a + 4 * Z.of_nat (S k)) by lia.
    + split; [|done]. intros _. exists 0%nat, l. split; [done|].
      by rewrite Z.mul_0_r, Z.add_0_r, Ew.
Qed.

Lemma assemble_encode_all self s :
  (assemble self s).2
  = encode_all (labels (assemble self s).1) (instruction_lines (source_lines s)) 0.
Proof.
  rewrite assemble_result, pass2_encode_all.
  by destruct (encode_all _ _ _).
Qed.

Lemma pass1_step_label L a l :
  pass1_step (L, a) l
  = match label_of l with
    | Some name => (<[name := a]> L, a)
    | None => (L, if skipped (Py.strip l) then a else a + 4)
    end.
Proof.
  unfold pass1_step, label_of, skipped.
  destruct (blank_or_comment (Py.strip l)); [done|].
  by destruct (Py.contains ":" (Py.strip l)).
Qed.

Lemma label_of_skipped l name : label_of l = Some name → skipped (Py.strip l) = true.
Proof.
  unfold label_of, skipped.
  destruct (blank_or_comment (Py.strip l)); [done|].
  by destruct (Py.contains ":" (Py.strip l)).
Qed.

(** The first pass ends at four times the number of instruction lines. *)
Lemma pass1_fold_address lines : ∀ L a,
  (fold_left pass1_step lines (L, a)).2
  = a + 4 * Z.of_nat (length (instruction_lines lines)).
Proof.
  unfold instruction_lines.
  induction lines as [|l lines IH]; intros L a; cbn [fold_left List.filter].
  - simpl. lia.
  - rewrite pass1_step_label. destruct (label_of l) as [n|] eqn:El.
    + rewrite (label_of_skipped _ _ El). cbn [negb]. apply IH.
    + destruct (skipped (Py.strip l)); cbn [negb]; rewrite IH; [done|].
      cbn [length]. lia.
Qed.

Lemma pass1_fold_other lines name : ∀ L a,
  (∀ l, l ∈ lines → label_of l ≠ Some name) →
  (fold_left pass1_step lines (L, a)).1 !! name = L !! name.
Proof.
  induction lines as [|l lines IH]; intros L a Hno; cbn [fold_left]; [done|].
  rewrite pass1_step_label.
  destruct (label_of l) as [n|] eqn:El.
  - rewrite IH by (intros; apply Hno; set_solver).
    apply lookup_insert_ne. intros ->. by apply (Hno l); [set_solver|].
  - apply IH. intros; apply Hno; set_solver.
Qed.

Lemma pass1_fold_app lines1 lines2 L a :
  fold_left pass1_step (lines1 ++ lines2) (L, a)
  = fold_left pass1_step lines2
      ((fold_left pass1_step lines1 (L, a)).1,
       a + 4 * Z.of_nat (length (instruction_lines lines1))).
Proof.
  rewrite fold_left_app. f_equal.
  rewrite <- (pass1_fold_address lines1 L a).
  by destruct (fold_left pass1_step lines1 (L, a)).
Qed.

(** Every address in the table after the first pass was there before or
    is the address of an instruction line or of the end of the text. *)
Lemma pass1_fold_invariant lines : ∀ L a name v,
  (fold_left pass1_step lines (L, a)).1 !! name = Some v →
  L !! name = Some v ∨
  ∃ k, v = a + 4 * Z.of_nat k ∧ (k <= length (instruction_lines lines))%nat.
Proof.
  induction lines as [|l lines IH]; intros L a name v; cbn [fold_left].
  { by left. }
  rewrite pass1_step_label.
  destruct (label_of l) as [n|] eqn:El.
  - intros [HL | (k & -> & Hk)]%IH.
    + destruct (decide (n = name)) as [->|Hne].
      * rewrite lookup_insert_eq in HL. injection HL as <-. right.
        exists 0%nat. split; [lia|]. lia.
      * rewrite lookup_insert_ne in HL by done. by left.
    + right. exists k. split; [done|].
      cbn [instruction_lines List.filter].
      rewrite (label_of_skipped _ _ El). done.
  - intros [HL | (k & -> & Hk)]%IH; [by left|]. right.
    cbn [instruction_lines List.filter].
    destruct (skipped (Py.strip l)); cbn [negb].
    + by exists k.
    + exists (S k). split; [lia|]. cbn [length]. fold (instruction_lines lines). lia.
Qed.

End Passes.

(** X1. When [assemble] returns a word list, it holds one word per
    instruction line (a line that is not blank, not a comment and has no
    colon), in order: the word of the [k]-th instruction line is its
    encoding at address [4 * k] with the label table left by the first
    pass. *)
Theorem X1_assemble_one_word_per_instruction_line
    (self : RISCVAssembler) (s : string) (ws : list Z) :
  (assemble self s).2 = Ok ws →
  length ws = length (instruction_lines (source_lines s)) ∧
  ∀ k l, instruction_lines (source_lines s) !! k = Some l →
    ∃ w, ws !! k = Some w ∧
         encode_line (labels (assemble self s).1) (Py.strip l) (4 * Z.of_nat k)
         = Ok w.
Proof.
  rewrite assemble_encode_all. intros H.
  destruct (encode_all_ok _ _ _ _ H) as [Hlen Hk]. split; [done|].
  intros k l Hl. destruct (Hk k l Hl) as (w & Hw & He). by exists w.
Qed.

Lemma X1_assemble_one_word_per_instruction_line_witness :
  length [0x00A00093; 0x00000113; 0x00110113; 0xFFF08093; 0x7E009CE3]
  = length (instruction_lines (source_lines loop_program)).
Proof.
  apply (X1_assemble_one_word_per_instruction_line new_assembler loop_program).
  vm_compute. reflexivity.
Defined.

(** X2. [assemble] raises exactly when the encoding of some instruction
    line raises at its address: one bad instruction line anywhere fails the
    whole run, and nothing else does (blank lines, comments and label lines
    never raise). *)
Theorem X2_assemble_raises_iff_a_line_raises (self : RISCVAssembler) (s : string) :
  raises (assemble self s).2 ↔
  ∃ k l, instruction_lines (source_lines s) !! k = Some l ∧
         raises (encode_line (labels (assemble self s).1) (Py.strip l)
                   (4 * Z.of_nat k)).
Proof. rewrite assemble_encode_all. apply encode_all_raises. Qed.

(** X3. The address the first pass gives a label is the address of the next
    instruction line: if the text's lines are [pre], then a line defining
    [name], then [post], and no line of [post] defines [name] again, the
    table maps [name] to four times the number of instruction lines in
    [pre]. *)
Theorem X3_label_gets_address_of_next_instruction
    (self : RISCVAssembler) (s : string) (pre post : list string)
    (lab name : string) :
  source_lines s = pre ++ lab :: post →
  label_of lab = Some name →
  (∀ l, l ∈ post → label_of l ≠ Some name) →
  labels (assemble self s).1 !! name
  = Some (4 * Z.of_nat (length (instruction_lines pre))).
Proof.
  intros Hs Hlab Hpost. rewrite assemble_labels, Hs. unfold pass1.
  rewrite pass1_fold_app. cbn [fold_left]. rewrite pass1_step_label, Hlab.
  rewrite pass1_fold_other by done. by rewrite lookup_insert_eq.
Qed.

Lemma X3_label_gets_address_of_next_instruction_witness :
  labels (assemble new_assembler loop_program).1 !! "loop" = Some 8.
Proof.
  apply (X3_label_gets_address_of_next_instruction new_assembler loop_program
           ["addi x1, x0, 10"; "addi x2, x0, 0"]
           ["addi x2, x2, 1"; "addi x1, x1, -1"; "bne x1, x0, loop"]
           "loop:" "loop").
  - vm_compute. reflexivity.
  - reflexivity.
  - intros l Hl.
    repeat (apply elem_of_cons in Hl as [-> | Hl]; [by vm_compute|]).
    by apply elem_of_nil in Hl.
Defined.

(** X4. After [assemble], every address in the label table either was in
    the table before the call or is a multiple of four between 0 and four
    times the number of instruction lines of the text. *)
Theorem X4_label_addresses_are_instruction_addresses
    (self : RISCVAssembler) (s name : string) (v : Z) :
  labels (assemble self s).1 !! name = Some v →
  labels self !! name = Some v ∨
  ∃ k, v = 4 * Z.of_nat k ∧
       (k <= length (instruction_lines (source_lines s)))%nat.
Proof.
  rewrite assemble_labels. unfold pass1.
  intros [H | (k & -> & Hk)]%pass1_fold_invariant; [by left|].
  right. exists k. split; [lia | done].
Qed.

Lemma X4_label_addresses_are_instruction_addresses_witness :
  labels new_assembler !! "loop" = Some 8 ∨
  ∃ k, 8 = 4 * Z.of_nat k ∧
       (k <= length (instruction_lines (source_lines loop_program)))%nat.
Proof.
  apply (X4_label_addresses_are_instruction_addresses new_assembler loop_program "loop" 8).
  vm_compute. reflexivity.
Defined.

(** ** The words of the encoders *)

Section EncoderWords.

Lemma low7_shiftl x n : 7 <= n → Z.land (Z.shiftl x n) 0x7F = 0.
Proof.
  intros Hn. apply Z.bits_inj'. intros i Hi.
  rewrite Z.land_spec, Z.bits_0. destruct (Z.lt_ge_cases i 7).
  - by rewrite Z.shiftl_spec_low by lia.
  - rewrite (Z.bits_above_log2 0x7F i) by (simpl; lia). apply andb_false_r.
Qed.

Lemma low7_land x m : Z.land m 0x7F = 0 → Z.land (Z.land x m) 0x7F = 0.
Proof. intros Hm. by rewrite <- Z.land_assoc, Hm, Z.land_0_r. Qed.

Lemma low7_lor x y : Z.land (Z.lor x y) 0x7F = Z.lor (Z.land x 0x7F) (Z.land y 0x7F).
Proof. apply Z.land_lor_distr_l. Qed.

Lemma low7_branch f3 rs1 rs2 off : Z.land (branch_word f3 rs1 rs2 off) 0x7F = 0x63.
Proof.
  unfold branch_word. rewrite !low7_lor, !low7_shiftl by lia.
  rewrite (low7_land off 0x1000) by done.
  rewrite Z.shiftr_land, (low7_land _ (Z.shiftr 0x800 4)) by done.
  done.
Qed.

Lemma low7_jal rd off : Z.land (jal_word rd off) 0x7F = 0x6F.
Proof.
  unfold jal_word. rewrite !low7_lor, low7_shiftl by lia.
  by rewrite (low7_land off 0xFFFFF000) by done.
Qed.

Lemma low7_jalr rd rs1 off : Z.land (jalr_word rd rs1 off) 0x7F = 0x67.
Proof. unfold jalr_word. by rewrite !low7_lor, !low7_shiftl by lia. Qed.

Lemma low7_rtype f3 f7 rd rs1 rs2 : Z.land (rtype_word f3 f7 rd rs1 rs2) 0x7F = 0x33.
Proof. unfold rtype_word. by rewrite !low7_lor, !low7_shiftl by lia. Qed.

Lemma low7_itype f3 rd rs1 imm : Z.land (itype_word f3 rd rs1 imm) 0x7F = 0x13.
Proof. unfold itype_word. by rewrite !low7_lor, !low7_shiftl by lia. Qed.

Lemma land_0xFFF imm : Z.land imm 0xFFF = imm mod 4096.
Proof. change 0xFFF with (Z.ones 12). by rewrite Z.land_ones by lia. Qed.

Lemma itype_word_sum f3 rd rs1 imm :
  0 <= f3 < 8 → 0 <= rd < 32 → 0 <= rs1 < 32 →
  itype_word f3 rd rs1 imm
  = 0x13 + rd * 2 ^ 7 + f3 * 2 ^ 12 + rs1 * 2 ^ 15 + (imm mod 4096) * 2 ^ 20.
Proof.
  intros. unfold itype_word. rewrite land_0xFFF, !Z.shiftl_mul_pow2 by lia.
  pose proof (Z.mod_pos_bound imm 4096 ltac:(lia)).
  rewrite (lor_low_high 0x13 rd 7) by lia.
  rewrite (lor_low_high _ f3 12) by lia.
  rewrite (lor_low_high _ rs1 15) by lia.
  by rewrite (lor_low_high _ _ 20) by lia.
Qed.

Lemma jalr_word_sum rd rs1 off :
  0 <= rd < 32 → 0 <= rs1 < 32 →
  jalr_word rd rs1 off
  = 0x67 + rd * 2 ^ 7 + rs1 * 2 ^ 15 + (off mod 4096) * 2 ^ 20.
Proof.
  intros. unfold jalr_word. rewrite land_0xFFF, !Z.shiftl_mul_pow2 by lia.
  pose proof (Z.mod_pos_bound off 4096 ltac:(lia)).
  rewrite (lor_low_high 0x67 rd 7) by lia.
  rewrite Z.mul_0_l, Z.lor_0_r.
  rewrite (lor_low_high _ rs1 15) by lia.
  by rewrite (lor_low_high _ _ 20) by lia.
Qed.

Lemma jal_word_sum rd off :
  0 <= rd < 32 →
  jal_word rd off = 0x6F + rd * 2 ^ 7 + field off 12 20 * 2 ^ 12.
Proof.
  intros. unfold jal_word.
  rewrite (land_field_mask off 12 20 0xFFFFF000) by (done || lia).
  rewrite Z.shiftl_mul_pow2 by lia.
  rewrite (lor_low_high 0x6F rd 7) by lia.
  by rewrite (lor_low_high _ _ 12) by lia.
Qed.

Lemma itype_mnemonic opcode :
  mem opcode ["addi"; "andi"; "ori"; "xori"] = true →
  ∃ f3, getitem opcode itype_funct3_map = Ok f3 ∧ 0 <= f3 < 8.
Proof.
  intros (x & Hx & ->%String.eqb_eq)%existsb_exists.
  simpl in Hx.
  destruct Hx as [<-|[<-|[<-|[<-|[]]]]];
    eexists; (split; [reflexivity|]); lia.
Qed.

End EncoderWords.

Ltac pow2_constants :=
  change (2 ^ 0) with 1 in *; change (2 ^ 1) with 2 in *;
  change (2 ^ 3) with 8 in *; change (2 ^ 5) with 32 in *;
  change (2 ^ 7) with 128 in *; change (2 ^ 12) with 4096 in *;
  change (2 ^ 15) with 32768 in *; change (2 ^ 20) with 1048576 in *;
  change (2 ^ 25) with 33554432 in *; change (2 ^ 31) with 2147483648 in *;
  change (2 ^ 32) with 4294967296 in *.

(** X5. Whatever the operands, also out of range or negative, the low
    seven bits of the word of every encoder are the opcode of its class:
    0x63 for branches, 0x6F for [jal], 0x67 for [jalr], 0x33 for R-type and
    0x13 for I-type instructions. *)
Theorem X5_low_seven_bits_are_the_opcode (f3 f7 rd rs1 rs2 imm : Z) :
  Z.land (branch_word f3 rs1 rs2 imm) 0x7F = 0x63 ∧
  Z.land (jal_word rd imm) 0x7F = 0x6F ∧
  Z.land (jalr_word rd rs1 imm) 0x7F = 0x67 ∧
  Z.land (rtype_word f3 f7 rd rs1 rs2) 0x7F = 0x33 ∧
  Z.land (itype_word f3 rd rs1 imm) 0x7F = 0x13.
Proof.
  repeat split;
    [apply low7_branch | apply low7_jal | apply low7_jalr
     | apply low7_rtype | apply low7_itype].
Qed.

(** X6. The static deriver records a fact for an encoded word exactly
    when the word came from the branch encoder or from [jal]: one fact at
    the word's address for those (with the alternating flag for a branch,
    taken for [jal]), none for [jalr], R-type, I-type and NOP words, whatever
    their operands. *)
Theorem X6_facts_only_for_branch_and_jal_words
    (i a f3 f7 rd rs1 rs2 imm : Z) :
  derive i a (branch_word f3 rs1 rs2 imm)
    = [(a, i mod 2 =? 0,
        Z.land (a + branch_offset (branch_word f3 rs1 rs2 imm)) 0xFFFFFFFF)] ∧
  derive i a (jal_word rd imm)
    = [(a, true, Z.land (a + jal_offset (jal_word rd imm)) 0xFFFFFFFF)] ∧
  derive i a (jalr_word rd rs1 imm) = [] ∧
  derive i a (rtype_word f3 f7 rd rs1 rs2) = [] ∧
  derive i a (itype_word f3 rd rs1 imm) = [] ∧
  derive i a 0x00000013 = [].
Proof.
  unfold derive.
  rewrite low7_branch, low7_jal, low7_jalr, low7_rtype, low7_itype.
  by repeat split.
Qed.

(** X7. An I-type instruction whose registers resolve within 0..31 is
    encoded as a 32-bit word with opcode 0x13, the registers and the funct3
    of the mnemonic in their fields, and the immediate reduced modulo 4096 in
    bits 31:20: an immediate out of the 12-bit range wraps, it is not
    rejected. *)
Theorem X7_itype_fields_and_immediate_wraps
    (opcode t1 t2 ti : string) (rd rs1 imm : Z) :
  mem opcode ["addi"; "andi"; "ori"; "xori"] = true →
  _parse_register t1 = Ok rd → _parse_register t2 = Ok rs1 →
  Py.int0 ti = Ok imm →
  0 <= rd < 32 → 0 <= rs1 < 32 →
  ∃ w, _encode_itype opcode [t1; t2; ti] = Ok w ∧
       field w 0 7 = 0x13 ∧ field w 7 5 = rd ∧
       getitem opcode itype_funct3_map = Ok (field w 12 3) ∧
       field w 15 5 = rs1 ∧ field w 20 12 = imm mod 4096 ∧
       0 <= w < 2 ^ 32.
Proof.
  intros Hop H1 H2 Hi Hrd Hrs1.
  destruct (itype_mnemonic opcode Hop) as (f3 & Hf3 & Hr3).
  exists (itype_word f3 rd rs1 imm). split.
  { unfold _encode_itype. cbn [Py.index nth_error mbind result_bind].
    rewrite H1. cbn [mbind result_bind]. rewrite H2. cbn [mbind result_bind].
    rewrite Hi. cbn [mbind result_bind]. by rewrite Hf3. }
  rewrite Hf3, itype_word_sum by done.
  pose proof (Z.mod_pos_bound imm 4096 ltac:(lia)) as Hm.
  set (m := imm mod 4096) in *. unfold field. pow2_constants.
  assert ((19 + rd * 128 + f3 * 4096 + rs1 * 32768 + m * 1048576) / 4096 mod 8 = f3)
    as -> by (Z.div_mod_to_equations; lia).
  repeat split; try lia; Z.div_mod_to_equations; lia.
Qed.

Lemma X7_itype_fields_and_immediate_wraps_witness :
  ∃ w, _encode_itype "addi" ["x1"; "x1"; "-1"] = Ok w ∧ field w 20 12 = 4095.
Proof.
  destruct (X7_itype_fields_and_immediate_wraps "addi" "x1" "x1" "-1" 1 1 (-1))
    as (w & Hw & _ & _ & _ & _ & Him & _);
    [reflexivity | reflexivity | reflexivity | reflexivity | lia | lia |].
  exists w. split; [exact Hw | exact Him].
Defined.

(** X8. For registers within 0..31 the words of [jal] and [jalr] are
    32-bit words with the registers in their fields. [jal] keeps bits 31:12
    of the offset in bits 31:12 of the word and drops its low twelve bits;
    [jalr] has funct3 0 and the offset modulo 4096 in bits 31:20. *)
Theorem X8_jump_word_fields (rd rs1 off : Z) :
  0 <= rd < 32 → 0 <= rs1 < 32 →
  (field (jal_word rd off) 0 7 = 0x6F ∧ field (jal_word rd off) 7 5 = rd ∧
   field (jal_word rd off) 12 20 = field off 12 20 ∧
   0 <= jal_word rd off < 2 ^ 32) ∧
  (field (jalr_word rd rs1 off) 0 7 = 0x67 ∧
   field (jalr_word rd rs1 off) 7 5 = rd ∧
   field (jalr_word rd rs1 off) 12 3 = 0 ∧
   field (jalr_word rd rs1 off) 15 5 = rs1 ∧
   field (jalr_word rd rs1 off) 20 12 = off mod 4096 ∧
   0 <= jalr_word rd rs1 off < 2 ^ 32).
Proof.
  intros Hrd Hrs1. rewrite jal_word_sum, jalr_word_sum by done.
  pose proof (field_range off 12 20 ltac:(lia)) as Hu.
  pose proof (Z.mod_pos_bound off 4096 ltac:(lia)) as Hm.
  set (u := field off 12 20) in *. set (m := off mod 4096) in *.
  unfold field. pow2_constants.
  repeat split; try lia; Z.div_mod_to_equations; lia.
Qed.

Lemma X8_jump_word_fields_witness :
  field (jal_word 1 8192) 12 20 = field 8192 12 20 ∧
  field (jalr_word 1 2 (-4)) 20 12 = (-4) mod 4096.
Proof.
  destruct (X8_jump_word_fields 1 2 8192) as [(_ & _ & Hj & _) _]; [lia | lia |].
  destruct (X8_jump_word_fields 1 2 (-4)) as [_ (_ & _ & _ & _ & Hr & _)];
    [lia | lia |].
  split; [exact Hj | exact Hr].
Defined.

(** X10. For funct3 within 0..7 and registers within 0..31 the word of a
    branch is a 31-bit number, whatever the offset. *)
Theorem X10_branch_word_range (f3 rs1 rs2 off : Z) :
  0 <= f3 < 8 → 0 <= rs1 < 32 → 0 <= rs2 < 32 →
  0 <= branch_word f3 rs1 rs2 off < 2 ^ 31.
Proof.
  intros Hf3 Hrs1 Hrs2. rewrite branch_word_sum by done.
  pose proof (field_range off 11 1 ltac:(lia)) as Ha.
  pose proof (field_range off 1 4 ltac:(lia)) as Hb.
  pose proof (field_range off 5 6 ltac:(lia)) as Hf.
  pose proof (field_range off 12 1 ltac:(lia)) as Hg.
  pose proof (lor_funct3_bit f3 (field off 12 1) Hf3 Hg) as Hfg.
  change (2 ^ 4) with 16 in *. change (2 ^ 6) with 64 in *.
  pow2_constants. change (2 ^ 8) with 256. lia.
Qed.

Lemma X10_branch_word_range_witness :
  0 <= branch_word 1 1 0 (-8) < 2 ^ 31.
Proof. apply (X10_branch_word_range 1 1 0 (-8)); lia. Defined.

(** ** The facts of the static deriver *)

Section DerivedFacts.

Implicit Types (ws : list Z) (f g : fact) (k : nat).

Lemma generate_loop_snoc ws w : ∀ i a acc,
  generate_loop (ws ++ [w]) i a acc
  = generate_loop ws i a acc
    ++ derive (i + Z.of_nat (length ws)) (a + 4 * Z.of_nat (length ws)) w.
Proof.
  induction ws as [|w' ws IH]; intros i a acc; cbn [app generate_loop length].
  - by rewrite !Z.add_0_r.
  - rewrite IH. do 2 f_equal; lia.
Qed.

Lemma generate_from_assembly_snoc ws w :
  generate_from_assembly (ws ++ [w])
  = generate_from_assembly ws
    ++ derive (Z.of_nat (length ws)) (4 * Z.of_nat (length ws)) w.
Proof. unfold generate_from_assembly. by rewrite generate_loop_snoc. Qed.

Lemma derive_length i a w : (length (derive i a w) <= 1)%nat.
Proof. unfold derive. repeat case_match; simpl; lia. Qed.

Lemma derive_target i a w f : f ∈ derive i a w → 0 <= f.2 < 2 ^ 32.
Proof.
  unfold derive. change 0xFFFFFFFF with (Z.ones 32).
  repeat case_match; [| |by intros ?%elem_of_nil];
    intros ->%list_elem_of_singleton; cbn [snd];
    rewrite Z.land_ones by lia; by apply Z.mod_pos_bound.
Qed.

(** A fact of the run sits at the address of a word of the sequence and
    has a 32-bit target. *)
Lemma generated_fact ws f :
  f ∈ generate_from_assembly ws →
  (∃ k, (k < length ws)%nat ∧ f.1.1 = 4 * Z.of_nat k) ∧ 0 <= f.2 < 2 ^ 32.
Proof.
  intros (k & w & Hk & Hf)%elem_of_generate_from_assembly. split.
  - exists k. split; [by eapply lookup_lt_Some | by eapply derive_address].
  - by eapply derive_target.
Qed.

Lemma generated_sorted ws :
  StronglySorted (λ f g, f.1.1 < g.1.1) (generate_from_assembly ws).
Proof.
  induction ws as [|w ws IH] using rev_ind; [constructor|].
  rewrite generate_from_assembly_snoc. apply StronglySorted_app_2; [|done|].
  - intros f g [(k & Hk & Hf) _]%generated_fact Hg%derive_address. lia.
  - pose proof (derive_length (Z.of_nat (length ws)) (4 * Z.of_nat (length ws)) w).
    destruct (derive _ _ w) as [|x [|y l]]; [constructor| |simpl in *; lia].
    repeat constructor.
Qed.

Lemma generated_length ws :
  (length (generate_from_assembly ws) <= length ws)%nat.
Proof.
  induction ws as [|w ws IH] using rev_ind; [done|].
  rewrite generate_from_assembly_snoc, !length_app. simpl.
  pose proof (derive_length (Z.of_nat (length ws)) (4 * Z.of_nat (length ws)) w).
  lia.
Qed.

Lemma table_index_word j : 0 <= j < 256 → table_index (4 * j) = j.
Proof.
  intros Hj. unfold table_index. change 0xFF with (Z.ones 8).
  rewrite Z.land_ones, Z.shiftr_div_pow2 by lia.
  change (2 ^ 2) with 4. change (2 ^ 8) with 256.
  rewrite (Z.mul_comm 4 j), Z.div_mul by lia. by apply Z.mod_small.
Qed.

End DerivedFacts.

(** X11. Every fact the static deriver returns sits at the address [4 * k]
    of some word of the sequence and has a target between 0 and 2^32 - 1;
    the facts come in strictly increasing address order, at most one per
    word. *)
Theorem X11_derived_facts_well_formed (ws : list Z) :
  (∀ f, f ∈ generate_from_assembly ws →
     (∃ k, (k < length ws)%nat ∧ f.1.1 = 4 * Z.of_nat k) ∧ 0 <= f.2 < 2 ^ 32) ∧
  StronglySorted (λ f g : fact, f.1.1 < g.1.1) (generate_from_assembly ws) ∧
  (length (generate_from_assembly ws) <= length ws)%nat.
Proof.
  split; [apply generated_fact|]. split; [apply generated_sorted|].
  apply generated_length.
Qed.

(** ** The packed table *)

Section Table.

Implicit Types (fs : list fact) (f g : fact).

Lemma pack_entry_sum a (taken : bool) target :
  0 <= a < 2 ^ 32 → 0 <= target < 2 ^ 32 →
  pack_entry (a, taken, target)
  = 2 ^ 65 + int_of_bool taken * 2 ^ 64 + a * 2 ^ 32 + target.
Proof.
  intros Ha Ht. unfold pack_entry. rewrite !Z.shiftl_mul_pow2 by lia.
  assert (0 <= int_of_bool taken < 2) by (destruct taken; simpl; lia).
  change (2 ^ 32) with 4294967296 in *.
  rewrite (lor_high_low (int_of_bool taken * 2 ^ 64) 1 65) by lia.
  replace (1 * 2 ^ 65 + int_of_bool taken * 2 ^ 64)
    with ((2 + int_of_bool taken) * 2 ^ 64) by lia.
  rewrite (lor_high_low (a * 4294967296) _ 64) by lia.
  replace ((2 + int_of_bool taken) * 2 ^ 64 + a * 4294967296)
    with (((2 + int_of_bool taken) * 4294967296 + a) * 2 ^ 32) by lia.
  rewrite (lor_high_low target _ 32) by lia. lia.
Qed.

Lemma pack_entry_fields f :
  fact32 f →
  field (pack_entry f) 65 1 = 1 ∧
  field (pack_entry f) 64 1 = int_of_bool f.1.2 ∧
  field (pack_entry f) 32 32 = f.1.1 ∧
  field (pack_entry f) 0 32 = f.2 ∧
  2 ^ 65 <= pack_entry f < 2 ^ 66.
Proof.
  destruct f as [[a taken] target]. intros [Ha Ht]. cbn [fst snd] in *.
  rewrite pack_entry_sum by done.
  assert (0 <= int_of_bool taken < 2) by (destruct taken; simpl; lia).
  set (b := int_of_bool taken) in *. unfold field.
  change (2 ^ 0) with 1. change (2 ^ 1) with 2.
  change (2 ^ 32) with 4294967296 in *.
  change (2 ^ 64) with 18446744073709551616.
  change (2 ^ 65) with 36893488147419103232.
  change (2 ^ 66) with 73786976294838206464.
  repeat split; try lia; Z.div_mod_to_equations; lia.
Qed.

Lemma build_table_app fs1 fs2 :
  build_table (fs1 ++ fs2) = build_table fs2 ∪ build_table fs1.
Proof.
  induction fs2 as [|f fs2 IH] using rev_ind.
  - rewrite app_nil_r. change (build_table []) with (∅ : gmap Z Z).
    by rewrite (left_id_L ∅ (∪)).
  - by rewrite app_assoc, !build_table_snoc, IH, insert_union_l.
Qed.

Lemma build_table_lookup_Some fs i e :
  build_table fs !! i = Some e →
  ∃ f, f ∈ fs ∧ table_index f.1.1 = i ∧ e = pack_entry f.
Proof.
  induction fs as [|f fs IH] using rev_ind; [done|].
  rewrite build_table_snoc.
  destruct (decide (table_index f.1.1 = i)) as [<-|Hne].
  - rewrite lookup_insert_eq. intros [= <-]. exists f. set_solver.
  - rewrite lookup_insert_ne by done.
    intros (g & Hg & ? & ?)%IH. exists g. set_solver.
Qed.

Lemma build_table_lookup_is_Some fs f :
  f ∈ fs → is_Some (build_table fs !! table_index f.1.1).
Proof.
  induction fs as [|g fs IH] using rev_ind; [by intros ?%elem_of_nil|].
  rewrite build_table_snoc, elem_of_app, list_elem_of_singleton.
  destruct (decide (table_index g.1.1 = table_index f.1.1)) as [->|Hne].
  - rewrite lookup_insert_eq. by eexists.
  - rewrite lookup_insert_ne by done. intros [Hf | ->]; [by apply IH | done].
Qed.

Lemma build_table_lookup_None fs i :
  build_table fs !! i = None ↔ ∀ f, f ∈ fs → table_index f.1.1 ≠ i.
Proof.
  split.
  - intros Hnone f Hf <-. apply build_table_lookup_is_Some in Hf as [e He].
    congruence.
  - intros Hno. destruct (build_table fs !! i) as [e|] eqn:E; [|done].
    apply build_table_lookup_Some in E as (f & Hf & Hi & _). by destruct (Hno f Hf).
Qed.

End Table.

(** X12. For a fact whose address and target are 32-bit numbers the
    packed record has the valid bit at bit 65, the taken flag at bit 64, the
    address in bits 63:32 and the target in bits 31:0; it lies between 2^65
    and 2^66 - 1, so it is never the zero that marks an empty slot. *)
Theorem X12_pack_entry_fields (f : fact) :
  fact32 f →
  field (pack_entry f) 65 1 = 1 ∧
  field (pack_entry f) 64 1 = int_of_bool f.1.2 ∧
  field (pack_entry f) 32 32 = f.1.1 ∧
  field (pack_entry f) 0 32 = f.2 ∧
  2 ^ 65 <= pack_entry f < 2 ^ 66.
Proof. apply pack_entry_fields. Qed.

Lemma X12_pack_entry_fields_witness :
  field (pack_entry (0x40, true, 0x100)) 32 32 = 0x40 ∧
  field (pack_entry (0x40, true, 0x100)) 0 32 = 0x100.
Proof.
  destruct (X12_pack_entry_fields (0x40, true, 0x100))
    as (_ & _ & Ha & Ht & _).
  - split; simpl; lia.
  - split; [exact Ha | exact Ht].
Defined.

(** X13. Packing loses nothing on 32-bit facts: two facts with 32-bit
    address and target that have the same packed record are equal. *)
Theorem X13_pack_entry_injective (f g : fact) :
  fact32 f → fact32 g → pack_entry f = pack_entry g → f = g.
Proof.
  intros Hf Hg Heq.
  destruct (pack_entry_fields f Hf) as (_ & Hb & Ha & Ht & _).
  destruct (pack_entry_fields g Hg) as (_ & Hb' & Ha' & Ht' & _).
  rewrite Heq in Hb, Ha, Ht.
  destruct f as [[a b] t], g as [[a' b'] t']. cbn [fst snd] in *.
  assert (b = b') as -> by (destruct b, b'; simpl in *; congruence).
  congruence.
Qed.

Lemma X13_pack_entry_injective_witness :
  (0x40, true, 0x100) = ((0x40, true, 0x100) : fact).
Proof.
  apply (X13_pack_entry_injective (0x40, true, 0x100) (0x40, true, 0x100)).
  - split; simpl; lia.
  - split; simpl; lia.
  - reflexivity.
Defined.

(** X14. Packing a fact list followed by another gives the table of the
    second laid over the table of the first: later facts win each shared
    slot and earlier ones keep the others. In particular packing a list
    twice in a row gives the table of the list. *)
Theorem X14_packing_appended_facts (fs1 fs2 : list fact) :
  build_table (fs1 ++ fs2) = build_table fs2 ∪ build_table fs1 ∧
  build_table (fs1 ++ fs1) = build_table fs1.
Proof.
  split; [apply build_table_app|].
  rewrite build_table_app. apply (idemp_L (∪)).
Qed.

(** X15. The keys of the table are the slot indices of the supplied facts
    and nothing else: a slot is empty exactly when no fact has its index, an
    occupied slot holds the packed record of one of the supplied facts with
    that index, and every key lies in 0..255. *)
Theorem X15_table_slots (fs : list fact) (i : Z) :
  (build_table fs !! i = None ↔ ∀ f, f ∈ fs → table_index f.1.1 ≠ i) ∧
  (∀ e, build_table fs !! i = Some e →
     0 <= i < 256 ∧ ∃ f, f ∈ fs ∧ table_index f.1.1 = i ∧ e = pack_entry f).
Proof.
  split; [apply build_table_lookup_None|].
  intros e (f & Hf & <- & ->)%build_table_lookup_Some.
  split; [apply table_index_range|]. by exists f.
Qed.

(** X16. The branch table file always has 256 lines, whatever the facts,
    and the line of a slot that no fact maps to is eighteen zeros. *)
Theorem X16_branch_mem_has_256_lines (fs : list fact) :
  length (generate_branch_mem fs) = 256%nat ∧
  ∀ i, 0 <= i < 256 →
    (∀ f, f ∈ fs → table_index f.1.1 ≠ i) →
    generate_branch_mem fs !! Z.to_nat i = Some "000000000000000000".
Proof.
  split.
  - unfold generate_branch_mem. by rewrite length_map, length_seq.
  - intros i Hi Hno. rewrite generate_branch_mem_lookup by done.
    unfold slot_line.
    by rewrite (proj2 (build_table_lookup_None fs i) Hno).
Qed.

(** X17. For a program of at most 256 words the static facts never
    collide in the table: every derived fact is found in the slot numbered
    by its word index (address / 4), and its record is on that line of the
    file. *)
Theorem X17_derived_facts_fill_their_slots (ws : list Z) (f : fact) :
  (length ws <= 256)%nat →
  f ∈ generate_from_assembly ws →
  build_table (generate_from_assembly ws) !! (f.1.1 / 4) = Some (pack_entry f) ∧
  generate_branch_mem (generate_from_assembly ws) !! Z.to_nat (f.1.1 / 4)
    = Some (format_018X (pack_entry f)).
Proof.
  intros Hlen Hf.
  destruct (generated_fact ws f Hf) as [(k & Hk & Hpc) _].
  assert (f.1.1 / 4 = Z.of_nat k) as Hdiv
    by (rewrite Hpc, (Z.mul_comm 4), Z.div_mul; lia).
  assert (table_index f.1.1 = Z.of_nat k) as Hidx
    by (rewrite Hpc; apply table_index_word; lia).
  assert (build_table (generate_from_assembly ws) !! table_index f.1.1
          = Some (pack_entry f)) as Hslot.
  { pose proof (generated_sorted ws) as Hsorted.
    pose proof Hf as Hin.
    apply list_elem_of_split in Hf as (pre & post & Heq).
    rewrite Heq in Hsorted |- *.
    apply StronglySorted_app_1_r, StronglySorted_cons in Hsorted as [Hpost _].
    apply build_table_last. intros g Hg.
    rewrite Forall_forall in Hpost. specialize (Hpost g Hg). cbn beta in Hpost.
    assert (g ∈ generate_from_assembly ws) as Hg' by (rewrite Heq; set_solver).
    destruct (generated_fact ws g Hg') as [(k' & Hk' & Hpc') _].
    rewrite Hidx, Hpc', table_index_word by lia. lia. }
  rewrite Hdiv, <- Hidx. split; [done|].
  rewrite generate_branch_mem_lookup by apply table_index_range.
  unfold slot_line. by rewrite Hslot.
Qed.

Lemma X17_derived_facts_fill_their_slots_witness :
  build_table
    (generate_from_assembly
       [0x00A00093; 0x00000113; 0x00110113; 0xFFF08093; 0x7E009CE3])
    !! (16 / 4) = Some (pack_entry (16, true, 4104)).
Proof.
  apply (X17_derived_facts_fill_their_slots
           [0x00A00093; 0x00000113; 0x00110113; 0xFFF08093; 0x7E009CE3]
           (16, true, 4104)).
  - simpl. lia.
  - vm_compute. apply list_elem_of_here.
Defined.

(** ** The hexadecimal lines *)

Section Hex.

Lemma string_app_cons c s t : String c s +:+ t = String c (s +:+ t).
Proof. done. Qed.

Lemma string_app_length s t :
  String.length (s +:+ t) = (String.length s + String.length t)%nat.
Proof.
  induction s as [|c s IH]; [done|].
  rewrite string_app_cons. simpl. by rewrite IH.
Qed.

Lemma zeros_length k : String.length (zeros k) = k.
Proof. induction k as [|k IH]; simpl; [done | by rewrite IH]. Qed.

Lemma hex_digits_length fuel : ∀ n acc k,
  0 <= n < 16 ^ Z.of_nat k →
  (String.length (hex_digits fuel n acc) <= k + String.length acc)%nat.
Proof.
  induction fuel as [|fuel IH]; intros n acc k Hn; cbn [hex_digits]; [lia|].
  destruct (Z.eqb_spec n 0) as [->|Hne]; [lia|].
  destruct k as [|k]; [simpl in Hn; lia|].
  rewrite Nat2Z.inj_succ, Z.pow_succ_r in Hn by lia.
  specialize (IH (n / 16) (String (hex_char (n mod 16)) acc) k).
  simpl in IH. assert (0 <= n / 16 < 16 ^ Z.of_nat k) as Hq.
  { split; [apply Z.div_pos; lia|]. apply Z.div_lt_upper_bound; lia. }
  specialize (IH Hq). lia.
Qed.

Lemma hex_digits_grows fuel : ∀ n acc,
  (String.length acc <= String.length (hex_digits fuel n acc))%nat.
Proof.
  induction fuel as [|fuel IH]; intros n acc; cbn [hex_digits]; [lia|].
  destruct (n =? 0); [lia|].
  specialize (IH (n / 16) (String (hex_char (n mod 16)) acc)). simpl in IH. lia.
Qed.

(** The digits [format_hex] writes for [n]. *)
Lemma format_hex_unfold width n :
  ∃ digits,
    format_hex width n
    = (if n <? 0 then "-" else "")
      +:+ zeros (width - String.length (if n <? 0 then "-" else "")
                 - String.length digits) +:+ digits ∧
    digits = (if n =? 0 then "0"
              else hex_digits (S (Z.to_nat (Z.log2 (Z.abs n)))) (Z.abs n)
                     EmptyString) ∧
    (1 <= String.length digits)%nat.
Proof.
  eexists. split; [reflexivity|]. split; [reflexivity|].
  destruct (Z.eqb_spec n 0) as [->|Hne]; [simpl; lia|].
  cbn [hex_digits]. destruct (Z.eqb_spec (Z.abs n) 0) as [E|_]; [lia|].
  pose proof (hex_digits_grows (Z.to_nat (Z.log2 (Z.abs n))) (Z.abs n / 16)
                (String (hex_char (Z.abs n mod 16)) EmptyString)) as H.
  simpl in H. lia.
Qed.

Lemma log2_fuel m :
  0 < m → 0 <= m < 16 ^ Z.of_nat (S (Z.to_nat (Z.log2 m))).
Proof.
  intros Hm. split; [lia|].
  pose proof (Z.log2_nonneg m) as Hl.
  destruct (Z.log2_spec m Hm) as [_ Hlt].
  rewrite Nat2Z.inj_succ, Z2Nat.id by lia.
  eapply Z.lt_le_trans; [exact Hlt|].
  apply Z.pow_le_mono_l. lia.
Qed.

(** A non-negative number below [16 ^ width] is written on exactly [width]
    characters. *)
Lemma format_hex_length width n :
  (1 <= width)%nat → 0 <= n < 16 ^ Z.of_nat width →
  String.length (format_hex width n) = width.
Proof.
  intros Hw Hn.
  destruct (format_hex_unfold width n) as (digits & -> & Hd & Hd1).
  replace (n <? 0) with false by (symmetry; apply Z.ltb_ge; lia).
  rewrite !string_app_length, zeros_length. cbn [String.length].
  assert (String.length digits <= width)%nat; [|lia].
  subst digits. destruct (Z.eqb_spec n 0) as [->|Hne]; [simpl; lia|].
  rewrite Z.abs_eq by lia.
  pose proof (hex_digits_length (S (Z.to_nat (Z.log2 n))) n EmptyString width Hn).
  simpl in *. lia.
Qed.

Lemma format_018X_hex n : format_018X n = format_hex 18 n.
Proof. done. Qed.

End Hex.

(** X18. The program memory file has one line per word, and the line of
    a word between 0 and 2^32 - 1 has exactly eight characters. *)
Theorem X18_program_mem_lines (machine_code : list Z) :
  length (generate_program_mem machine_code) = length machine_code ∧
  ((∀ w, w ∈ machine_code → 0 <= w < 2 ^ 32) →
   ∀ line, line ∈ generate_program_mem machine_code → String.length line = 8%nat).
Proof.
  unfold generate_program_mem. split; [apply length_map|].
  intros Hws line (w & -> & Hw)%list_elem_of_fmap.
  apply format_hex_length; [lia|]. apply Hws in Hw.
  change (16 ^ Z.of_nat 8) with (2 ^ 32). lia.
Qed.

(** X19. When every supplied fact has a 32-bit address and target, each
    of the 256 lines of the branch table file has exactly eighteen
    characters. *)
Theorem X19_branch_mem_lines_fixed_width (fs : list fact) (line : string) :
  (∀ f, f ∈ fs → fact32 f) →
  line ∈ generate_branch_mem fs →
  String.length line = 18%nat.
Proof.
  intros Hfs (i & -> & _)%list_elem_of_fmap. unfold slot_line.
  destruct (build_table fs !! Z.of_nat i) as [e|] eqn:E; [|done].
  apply build_table_lookup_Some in E as (f & Hf & _ & ->).
  destruct (pack_entry_fields f (Hfs f Hf)) as (_ & _ & _ & _ & Hr).
  rewrite format_018X_hex. apply format_hex_length; [lia|].
  change (16 ^ Z.of_nat 18) with (2 ^ 72).
  change (2 ^ 65) with 36893488147419103232 in Hr.
  change (2 ^ 66) with 73786976294838206464 in Hr.
  change (2 ^ 72) with 4722366482869645213696. lia.
Qed.

Lemma X19_branch_mem_lines_fixed_width_witness :
  String.length (format_018X (pack_entry (0x40, true, 0x100))) = 18%nat.
Proof.
  apply (X19_branch_mem_lines_fixed_width [(0x40, true, 0x100)]).
  - intros f ->%list_elem_of_singleton. split; simpl; lia.
  - vm_compute. do 16 apply list_elem_of_further. apply list_elem_of_here.
Defined.

(** ** Reading the hexadecimal lines back *)

Section HexRoundTrip.

(** A character that [int(s, 16)] takes as a digit is no white space,
    sign, underscore or [x]. *)
Lemma hex_digit_char c :
  all_digits 16 (String c EmptyString) = true →
  Py.isspace_int c = false ∧ Ascii.eqb c "_" = false ∧
  Ascii.eqb c "x" = false ∧ Ascii.eqb c "X" = false ∧
  (∀ s, Py.split_sign (String c s) = (false, String c s)).
Proof.
  destruct c as [[] [] [] [] [] [] [] []]; vm_compute; intros H;
    try discriminate H; repeat split.
Qed.

Lemma all_digits_cons b c s :
  all_digits b (String c s) = all_digits b (String c EmptyString) && all_digits b s.
Proof.
  cbn [all_digits]. destruct (Py.digit_value c); [|done].
  by rewrite andb_true_r.
Qed.

Lemma all_digits_app b s t :
  all_digits b (s +:+ t) = all_digits b s && all_digits b t.
Proof.
  induction s as [|c s IH]; [done|].
  rewrite string_app_cons, (all_digits_cons b c s), (all_digits_cons b c (_ +:+ _)), IH.
  by rewrite andb_assoc.
Qed.

Lemma hex_char_digit d :
  0 <= d < 16 →
  Py.digit_value (hex_char d) = Some d ∧ Ascii.eqb (hex_char d) "_" = false.
Proof.
  intros Hd.
  assert (d = 0 ∨ d = 1 ∨ d = 2 ∨ d = 3 ∨ d = 4 ∨ d = 5 ∨ d = 6 ∨ d = 7 ∨
          d = 8 ∨ d = 9 ∨ d = 10 ∨ d = 11 ∨ d = 12 ∨ d = 13 ∨ d = 14 ∨ d = 15)
    as Hc by lia.
  repeat (destruct Hc as [->|Hc]; [by vm_compute|]). subst. by vm_compute.
Qed.

Lemma scan_hex_char v d s :
  0 <= d < 16 →
  Py.scan_digits 16 false v (String (hex_char d) s)
  = Py.scan_digits 16 false (v * 16 + d) s.
Proof.
  intros Hd. destruct (hex_char_digit d Hd) as [Hv Hu].
  cbn [Py.scan_digits]. rewrite Hu, Hv.
  by replace (d <? 16) with true by (symmetry; apply Z.ltb_lt; lia).
Qed.

Lemma all_digits_zeros k : all_digits 16 (zeros k) = true.
Proof. induction k as [|k IH]; [done|]. simpl zeros. by rewrite all_digits_cons, IH. Qed.

Lemma all_digits_hex_digits fuel : ∀ n acc,
  0 <= n → all_digits 16 acc = true →
  all_digits 16 (hex_digits fuel n acc) = true.
Proof.
  induction fuel as [|fuel IH]; intros n acc Hn Hacc; cbn [hex_digits]; [done|].
  destruct (n =? 0); [done|]. apply IH; [apply Z.div_pos; lia|].
  rewrite all_digits_cons, Hacc, andb_true_r. cbn [all_digits].
  pose proof (Z.mod_pos_bound n 16 ltac:(lia)) as Hm.
  destruct (hex_char_digit (n mod 16) Hm) as [-> _].
  rewrite andb_true_r. apply Z.ltb_lt. lia.
Qed.

Lemma scan_zeros k s :
  Py.scan_digits 16 false 0 (zeros k +:+ s) = Py.scan_digits 16 false 0 s.
Proof. induction k as [|k IH]; [done|]. simpl zeros. rewrite string_app_cons. exact IH. Qed.

(** Reading the digits written for [n] gives [n] back. *)
Lemma scan_hex_digits fuel : ∀ n acc,
  0 <= n < 16 ^ Z.of_nat fuel →
  Py.scan_digits 16 false 0 (hex_digits fuel n acc)
  = Py.scan_digits 16 false n acc.
Proof.
  induction fuel as [|fuel IH]; intros n acc Hn; cbn [hex_digits].
  - simpl in Hn. by replace n with 0 by lia.
  - destruct (Z.eqb_spec n 0) as [->|Hne]; [done|].
    rewrite Nat2Z.inj_succ, Z.pow_succ_r in Hn by lia.
    rewrite IH.
    + rewrite scan_hex_char by (apply Z.mod_pos_bound; lia).
      f_equal. rewrite Z.mul_comm. symmetry. apply Z.div_mod. lia.
    + split; [apply Z.div_pos; lia|]. apply Z.div_lt_upper_bound; lia.
Qed.

Lemma rstrip_hex s :
  all_digits 16 s = true → Py.rstrip_by Py.isspace_int s = s.
Proof.
  induction s as [|c s IH]; [done|].
  rewrite all_digits_cons. intros [Hc Hs]%andb_true_iff.
  cbn [Py.rstrip_by]. rewrite (IH Hs).
  destruct (hex_digit_char c Hc) as (-> & _). by destruct s.
Qed.

Lemma strip_prefix16_hex s : all_digits 16 s = true → Py.strip_prefix16 s = s.
Proof.
  destruct s as [|c [|c' r]]; [done| |].
  - intros _. by destruct c as [[] [] [] [] [] [] [] []].
  - rewrite all_digits_cons, (all_digits_cons _ c').
    intros [_ [Hc' _]%andb_true_iff]%andb_true_iff.
    destruct (hex_digit_char c' Hc') as (_ & _ & Hx & HX & _).
    destruct c as [[] [] [] [] [] [] [] []]; cbn [Py.strip_prefix16];
      try done; by rewrite Hx, HX.
Qed.

(** [int(s, 16)] on a non-empty run of digits, with and without a minus
    sign in front. *)
Lemma int16_hex_body s v :
  all_digits 16 s = true → s ≠ EmptyString →
  Py.scan_digits 16 false 0 s = Some v →
  Py.int16 s = Ok v ∧ Py.int16 (String "-" s) = Ok (- v).
Proof.
  intros Hs Hne Hv. destruct s as [|c s']; [done|].
  pose proof Hs as Hs0. rewrite all_digits_cons in Hs0.
  apply andb_true_iff in Hs0 as [Hc _].
  destruct (hex_digit_char c Hc) as (Hsp & Hu & _ & _ & Hsign).
  assert (Py.int_digits 16 (String c s') = Some v) as Hd
    by (unfold Py.int_digits; by rewrite Hu).
  split.
  - unfold Py.int16, Py.strip_int. cbn [Py.lstrip_by]. rewrite Hsp.
    rewrite rstrip_hex, Hsign, strip_prefix16_hex, Hd by done. done.
  - unfold Py.int16, Py.strip_int.
    change (Py.lstrip_by Py.isspace_int (String "-" (String c s')))
      with (String "-" (String c s')).
    assert (Py.rstrip_by Py.isspace_int (String "-" (String c s'))
            = String "-" (String c s')) as ->.
    { change (Py.rstrip_by Py.isspace_int (String "-" (String c s')))
        with (match Py.rstrip_by Py.isspace_int (String c s') with
              | EmptyString => String "-" EmptyString
              | r' => String "-" r'
              end).
      by rewrite rstrip_hex by done. }
    change (Py.split_sign (String "-" (String c s'))) with (true, String c s').
    cbv beta iota zeta.
    rewrite strip_prefix16_hex, Hd by done. done.
Qed.

Lemma int16_format_hex width n : Py.int16 (format_hex width n) = Ok n.
Proof.
  destruct (format_hex_unfold width n) as (digits & -> & Hd & Hd1).
  set (k := (width - _ - _)%nat). clearbody k.
  assert (all_digits 16 (zeros k +:+ digits) = true
          ∧ Py.scan_digits 16 false 0 (zeros k +:+ digits) = Some (Z.abs n))
    as [Hall Hscan].
  { rewrite all_digits_app, all_digits_zeros, scan_zeros. subst digits.
    destruct (Z.eq_dec n 0) as [E|Hne].
    { rewrite E. done. }
    replace (n =? 0) with false by (symmetry; by apply Z.eqb_neq). split.
    - apply all_digits_hex_digits; [lia | done].
    - rewrite scan_hex_digits by (apply log2_fuel; lia). done. }
  assert (zeros k +:+ digits ≠ EmptyString) as Hne.
  { intros E. apply (f_equal String.length) in E.
    rewrite string_app_length in E. simpl in E. lia. }
  destruct (int16_hex_body _ _ Hall Hne Hscan) as [Hpos Hneg].
  destruct (Z.ltb_spec n 0).
  - change ("-" +:+ zeros k +:+ digits) with (String "-" (zeros k +:+ digits)).
    rewrite Hneg. f_equal. lia.
  - change ("" +:+ zeros k +:+ digits) with (zeros k +:+ digits).
    rewrite Hpos. f_equal. lia.
Qed.

End HexRoundTrip.

(** X20. The hexadecimal lines lose nothing: reading a line of the
    program memory file or of the branch table file with [int(line, 16)], as
    the trace reader reads its addresses, gives back the word or record that
    was written, for every integer, also a negative one or one wider than
    the field. *)
Theorem X20_hex_lines_read_back (n : Z) :
  Py.int16 (format_08X n) = Ok n ∧ Py.int16 (format_018X n) = Ok n.
Proof.
  split; [apply int16_format_hex|].
  rewrite format_018X_hex. apply int16_format_hex.
Qed.

(** ** The trace reader *)

Section Trace.

Implicit Types (lines : list string) (fs acc : list fact).

Lemma parse_trace_step_acc acc line :
  parse_trace_step acc line
  = (fs ← parse_trace_step [] line; Ok (acc ++ fs)).
Proof.
  unfold parse_trace_step.
  destruct (blank_or_comment (Py.strip line)); [cbn; by rewrite app_nil_r|].
  destruct (3 <=? length (Py.split (Py.strip line)))%nat;
    [|cbn; by rewrite app_nil_r].
  destruct (Py.index _ 0) as [p0|]; [|done]. cbn [mbind result_bind].
  destruct (Py.int16 p0) as [a|]; [|done]. cbn [mbind result_bind].
  destruct (Py.index _ 1) as [p1|]; [|done]. cbn [mbind result_bind].
  destruct (Py.int10 p1) as [t|]; [|done]. cbn [mbind result_bind].
  destruct (Py.index _ 2) as [p2|]; [|done]. cbn [mbind result_bind].
  by destruct (Py.int16 p2).
Qed.

Lemma parse_trace_loop_acc lines : ∀ acc,
  parse_trace_loop lines acc
  = (fs ← parse_trace_loop lines []; Ok (acc ++ fs)).
Proof.
  induction lines as [|l lines IH]; intros acc; cbn [parse_trace_loop].
  - cbn. by rewrite app_nil_r.
  - rewrite (parse_trace_step_acc acc).
    destruct (parse_trace_step [] l) as [fs|e]; [|done].
    cbn [mbind result_bind]. rewrite IH, (IH fs).
    destruct (parse_trace_loop lines []) as [fs'|e]; [|done].
    cbn. by rewrite app_assoc.
Qed.

Lemma parse_trace_loop_app lines1 lines2 acc :
  parse_trace_loop (lines1 ++ lines2) acc
  = (fs ← parse_trace_loop lines1 acc; parse_trace_loop lines2 fs).
Proof.
  revert acc. induction lines1 as [|l lines1 IH]; intros acc; [done|].
  cbn [app parse_trace_loop].
  destruct (parse_trace_step acc l) as [fs|e]; [|done]. apply IH.
Qed.

Lemma parse_trace_app lines1 lines2 :
  parse_trace (lines1 ++ lines2)
  = (fs1 ← parse_trace lines1; fs2 ← parse_trace lines2; Ok (fs1 ++ fs2)).
Proof.
  unfold parse_trace. rewrite parse_trace_loop_app.
  destruct (parse_trace_loop lines1 []) as [fs1|e]; [|done].
  cbn [mbind result_bind]. apply parse_trace_loop_acc.
Qed.

(** A line the reader passes over: blank, a comment, or with fewer than
    three fields. *)
Lemma parse_trace_step_skip acc line :
  blank_or_comment (Py.strip line) = true
  ∨ (length (Py.split (Py.strip line)) < 3)%nat →
  parse_trace_step acc line = Ok acc.
Proof.
  unfold parse_trace_step. intros [-> | Hlen]; [done|].
  destruct (blank_or_comment _); [done|].
  by replace (3 <=? _)%nat with false by (symmetry; apply Nat.leb_gt; lia).
Qed.

End Trace.

(** X21. Reading a trace is compositional: the facts of two runs of lines
    read one after the other are the facts of the first followed by the
    facts of the second, and the first exception met, if any, is the
    result. *)
Theorem X21_parse_trace_of_appended_lines (lines1 lines2 : list string) :
  parse_trace (lines1 ++ lines2)
  = (fs1 ← parse_trace lines1; fs2 ← parse_trace lines2; Ok (fs1 ++ fs2)).
Proof. apply parse_trace_app. Qed.

(** X22. A trace line that is blank, starts with [#] or holds fewer than
    three fields is passed over without an error: removing it from the trace
    changes nothing. *)
Theorem X22_parse_trace_skips_short_lines
    (pre post : list string) (line : string) :
  blank_or_comment (Py.strip line) = true
  ∨ (length (Py.split (Py.strip line)) < 3)%nat →
  parse_trace (pre ++ line :: post) = parse_trace (pre ++ post).
Proof.
  intros Hskip.
  assert (parse_trace [line] = Ok []) as Hl.
  { unfold parse_trace. cbn [parse_trace_loop].
    by rewrite parse_trace_step_skip. }
  change (line :: post) with ([line] ++ post).
  rewrite (parse_trace_app pre ([line] ++ post)), (parse_trace_app [line] post),
    (parse_trace_app pre post), Hl.
  destruct (parse_trace pre) as [fs1|e]; [|done]. cbn [mbind result_bind].
  by destruct (parse_trace post).
Qed.

Lemma X22_parse_trace_skips_short_lines_witness :
  parse_trace ["0x40 1 0x100"; "0x80 0"; "0x80 0 0x84"]
  = parse_trace ["0x40 1 0x100"; "0x80 0 0x84"].
Proof.
  apply (X22_parse_trace_skips_short_lines ["0x40 1 0x100"] ["0x80 0 0x84"] "0x80 0").
  right. vm_compute. lia.
Defined.

(** ** Register names *)

Section RegisterNames.

Lemma lower_char_idem c : Py.lower_char (Py.lower_char c) = Py.lower_char c.
Proof. by destruct c as [[] [] [] [] [] [] [] []]. Qed.

Lemma lower_idem s : Py.lower (Py.lower s) = Py.lower s.
Proof.
  unfold Py.lower. induction s as [|c s IH]; [done|].
  cbn [Py.map_chars]. by rewrite lower_char_idem, IH.
Qed.

End RegisterNames.

(** X23. Register names are case-insensitive: a token and its lower-case
    form resolve alike, to the same register or the same exception. *)
Theorem X23_register_names_case_insensitive (reg : string) :
  _parse_register (Py.lower reg) = _parse_register reg.
Proof. unfold _parse_register. by rewrite lower_idem. Qed.

(** X24. Every ABI alias of the table resolves to its own register number,
    which lies in 0..31: no alias begins with [x], so none is taken for a
    numeric register. *)
Theorem X24_aliases_resolve_to_table_values :
  Forall (λ entry, _parse_register entry.1 = Ok entry.2 ∧ 0 <= entry.2 < 32)
    reg_map.
Proof. unfold reg_map. repeat constructor; by vm_compute. Qed.

(** ** Lines that are no instructions, and the table across calls *)

Section Lines.

Lemma instruction_lines_app lines1 lines2 :
  instruction_lines (lines1 ++ lines2)
  = instruction_lines lines1 ++ instruction_lines lines2.
Proof. apply List.filter_app. Qed.

Lemma pass1_step_blank st line :
  blank_or_comment (Py.strip line) = true → pass1_step st line = st.
Proof. destruct st as [L a]. unfold pass1_step. by intros ->. Qed.

Lemma pass1_drop_blank L pre line post :
  blank_or_comment (Py.strip line) = true →
  pass1 L (pre ++ line :: post) = pass1 L (pre ++ post).
Proof.
  intros Hb. unfold pass1. rewrite !fold_left_app. cbn [fold_left].
  by rewrite pass1_step_blank.
Qed.

Lemma instruction_lines_drop_blank pre line post :
  blank_or_comment (Py.strip line) = true →
  instruction_lines (pre ++ line :: post) = instruction_lines (pre ++ post).
Proof.
  intros Hb. rewrite !instruction_lines_app. f_equal.
  cbn [instruction_lines List.filter]. unfold skipped at 1. by rewrite Hb.
Qed.

Lemma pass1_twice L lines : pass1 (pass1 L lines) lines = pass1 L lines.
Proof.
  rewrite (pass1_union (pass1 L lines)), (pass1_union L).
  by rewrite (assoc_L (∪)), (idemp_L (∪)).
Qed.

End Lines.

(** X25. Blank lines and lines that start with [#] never change the
    outcome: two texts whose lines differ by one such line leave the same
    label table and give the same words or the same exception. *)
Theorem X25_comment_lines_do_not_matter
    (self : RISCVAssembler) (s1 s2 : string) (pre post : list string)
    (line : string) :
  source_lines s1 = pre ++ line :: post →
  source_lines s2 = pre ++ post →
  blank_or_comment (Py.strip line) = true →
  assemble self s1 = assemble self s2.
Proof.
  intros H1 H2 Hb.
  assert (labels (assemble self s1).1 = labels (assemble self s2).1) as HL.
  { rewrite !assemble_labels, H1, H2. by apply pass1_drop_blank. }
  apply injective_projections.
  - unfold assemble in *. cbn [fst labels] in *. by rewrite HL.
  - rewrite !assemble_encode_all, HL, H1, H2.
    by rewrite instruction_lines_drop_blank.
Qed.

Lemma X25_comment_lines_do_not_matter_witness :
  assemble new_assembler ("nop" +:+ nl +:+ "# note" +:+ nl +:+ "nop")
  = assemble new_assembler ("nop" +:+ nl +:+ "nop").
Proof.
  apply (X25_comment_lines_do_not_matter new_assembler _ _ ["nop"] ["nop"] "# note");
    by vm_compute.
Defined.

(** X26. [assemble] only adds to the label table or overrides it: the
    table after the call is the table of the text's own labels laid over
    the table before the call. Assembling the same text again on the same
    instance then changes neither the table nor the result. *)
Theorem X26_labels_accumulate (self : RISCVAssembler) (s : string) :
  labels (assemble self s).1
    = labels (assemble new_assembler s).1 ∪ labels self ∧
  assemble (assemble self s).1 s = assemble self s.
Proof.
  split.
  - rewrite !assemble_labels. apply pass1_union.
  - assert (labels (assemble (assemble self s).1 s).1 = labels (assemble self s).1)
      as HL by (rewrite !assemble_labels; apply pass1_twice).
    apply injective_projections.
    + unfold assemble in *. cbn [fst labels instructions pc] in *. by rewrite HL.
    + by rewrite !assemble_result, HL.
Qed.

(** ** Where the round trip holds *)

(** X27. For funct3 and registers in range and an even offset, the fact
    derived from an encoded branch has target
    [(address + offset mod 4096) mod 2^32]: an offset from 0 to 4094 is
    recovered, and an offset from -4096 to -2 comes back 4096 too high. *)
Theorem X27_branch_target_read_back (i a f3 rs1 rs2 off : Z) :
  0 <= f3 < 8 → 0 <= rs1 < 32 → 0 <= rs2 < 32 → off mod 2 = 0 →
  derive i a (branch_word f3 rs1 rs2 off)
  = [(a, i mod 2 =? 0, (a + off mod 4096) mod 2 ^ 32)].
Proof.
  intros Hf3 Hrs1 Hrs2 Heven. unfold derive.
  rewrite low7_branch. cbn [Z.eqb Pos.eqb].
  rewrite branch_offset_of_branch_word by done.
  change 0xFFFFFFFF with (Z.ones 32). rewrite Z.land_ones by lia.
  do 3 f_equal. unfold field.
  change (2 ^ 1) with 2. change (2 ^ 11) with 2048.
  Z.div_mod_to_equations. lia.
Qed.

Lemma X27_branch_target_read_back_witness :
  derive 1 4 (branch_word 0 0 0 (-4)) = [(4, false, 4096)].
Proof.
  apply (X27_branch_target_read_back 1 4 0 0 0 (-4)); (lia || reflexivity).
Defined.

(** X28. For a register in range and an offset from 0 to 2^20 - 1, the
    fact derived from an encoded [jal] is taken and has the target
    [(address + offset - offset mod 4096) mod 2^32]: the offset is
    recovered exactly when it is a multiple of 4096. *)
Theorem X28_jal_target_read_back (i a rd off : Z) :
  0 <= rd < 32 → 0 <= off < 2 ^ 20 →
  derive i a (jal_word rd off)
  = [(a, true, (a + (off - off mod 4096)) mod 2 ^ 32)].
Proof.
  intros Hrd Hoff. unfold derive.
  rewrite low7_jal. cbn [Z.eqb Pos.eqb].
  rewrite jal_offset_of_jal_word by done.
  change 0xFFFFFFFF with (Z.ones 32). by rewrite Z.land_ones by lia.
Qed.

Lemma X28_jal_target_read_back_witness :
  derive 0 0 (jal_word 0 8192) = [(0, true, 8192)].
Proof.
  apply (X28_jal_target_read_back 0 0 0 8192); [lia|]. simpl. lia.
Defined.

(** ** Branches to labels *)

(** X9. When [assemble] returns its words and the [k]-th instruction line
    is a branch [op t1, t2, name] whose target [name] is in the label table
    with address [target], the [k]-th word is the branch word of the two
    resolved registers with the offset [target - 4 * k]: the distance from
    the branch's own address to the label. *)
Theorem X9_branch_to_label_is_relative
    (self : RISCVAssembler) (s : string) (ws : list Z) (k : nat)
    (l op t1 t2 name : string) (target : Z) :
  (assemble self s).2 = Ok ws →
  instruction_lines (source_lines s) !! k = Some l →
  Py.split (Py.replace "," " " (Py.strip l)) = [op; t1; t2; name] →
  mem (Py.lower op) ["beq"; "bne"; "blt"; "bge"] = true →
  labels (assemble self s).1 !! name = Some target →
  ∃ rs1 rs2,
    _parse_register t1 = Ok rs1 ∧ _parse_register t2 = Ok rs2 ∧
    ws !! k
    = Some (branch_word (default 0 (assoc (Py.lower op) branch_funct3_map))
              rs1 rs2 (target - 4 * Z.of_nat k)).
Proof.
  intros Hws Hl Hsplit Hop Hname.
  rewrite assemble_encode_all in Hws.
  destruct (encode_all_ok _ _ _ _ Hws) as [_ Hk].
  destruct (Hk k l Hl) as (w & Hw & He). rewrite Z.add_0_l in He.
  unfold encode_line in He. rewrite Hsplit in He.
  cbn [Py.index nth_error mbind result_bind List.tl] in He.
  rewrite Hop in He. unfold _encode_branch in He.
  cbn [Py.index nth_error mbind result_bind] in He.
  destruct (_parse_register t1) as [rs1|]; [|done].
  cbn [mbind result_bind] in He.
  destruct (_parse_register t2) as [rs2|]; [|done].
  cbn [mbind result_bind] in He.
  unfold resolve_offset in He. rewrite Hname in He.
  cbn [mbind result_bind] in He. injection He as <-.
  by exists rs1, rs2.
Qed.

Lemma X9_branch_to_label_is_relative_witness :
  ∃ rs1 rs2,
    _parse_register "x1" = Ok rs1 ∧ _parse_register "x0" = Ok rs2 ∧
    [0x00A00093; 0x00000113; 0x00110113; 0xFFF08093; 0x7E009CE3] !! 4%nat
    = Some (branch_word (default 0 (assoc (Py.lower "bne") branch_funct3_map))
              rs1 rs2 (8 - 4 * Z.of_nat 4)).
Proof.
  apply (X9_branch_to_label_is_relative new_assembler loop_program _ 4
           "bne x1, x0, loop" "bne" "x1" "x0" "loop" 8);
    by vm_compute.
Defined.

(** ** Registers out of range *)

Section NumericRegisters.















End NumericRegisters.



